(** * Move selection of the chess AI: evaluator, strategies and dispatch

    A shallow embedding of [src/App.tsx] (the foreground fallback and the
    React component's coordination logic) and of the web worker
    [src/engine/ai.worker.ts] (the background context).

    The rules engine (chess.js) is an external collaborator: it appears as
    the interface [RulesEngine].  A [Chess] value is the state of one
    mutable [Chess] object; code that mutates the object threads that state
    through a small state monad. *)

From Stdlib Require Import ZArith QArith Qround List String Ascii Bool Lia.
Import ListNotations.
Open Scope Z_scope.

(** ** JavaScript numbers

    Every number the strategies handle is an integer of magnitude below
    2^53 or one of the two infinities, so it is modelled exactly. *)

Inductive Num : Type :=
| NegInf            (* -Infinity *)
| Fin (z : Z)
| PosInf.           (* Infinity *)

Definition Nleb (x y : Num) : bool :=
  match x, y with
  | NegInf, _ => true
  | _, PosInf => true
  | Fin a, Fin c => a <=? c
  | _, _ => false
  end.

(* x >= y, x > y, x < y as JavaScript compares numbers *)
Definition Ngeb (x y : Num) : bool := Nleb y x.
Definition Ngtb (x y : Num) : bool := negb (Nleb x y).
Definition Nltb (x y : Num) : bool := negb (Nleb y x).

(* Math.max, Math.min *)
Definition Nmax (x y : Num) : Num := if Nleb x y then y else x.
Definition Nmin (x y : Num) : Num := if Nleb x y then x else y.

(* the order of the extended integers, as propositions *)
Definition Nle (x y : Num) : Prop :=
  match x, y with
  | NegInf, _ => True
  | _, PosInf => True
  | Fin a, Fin c => a <= c
  | _, _ => False
  end.

Definition Nlt (x y : Num) : Prop :=
  match x, y with
  | PosInf, _ => False
  | _, NegInf => False
  | Fin a, Fin c => a < c
  | _, _ => True
  end.

(** What a fail-soft alpha-beta result [r] says about the exact value [v]
    for the window ([a], [b]): a result at or below [a] is an upper bound,
    one at or above [b] a lower bound, one strictly inside is exact. *)
Definition within (a b v r : Num) : Prop :=
  (Nle r a -> Nle v r) /\
  (Nlt a r -> Nlt r b -> Nle v r /\ Nle r v) /\
  (Nle b r -> Nle r v).

Definition finite (x : Num) : Prop := exists z, x = Fin z.

(** ** Data of the rules engine, as the code reads it *)

Inductive Color : Type := White | Black.            (* 'w' | 'b' *)

Inductive PieceSymbol : Type :=
| Pawn | Knight | Bishop | Rook | Queen | King.     (* 'p' 'n' 'b' 'r' 'q' 'k' *)

Definition Color_eqb (x y : Color) : bool :=
  match x, y with
  | White, White | Black, Black => true
  | _, _ => false
  end.

Definition PieceSymbol_eqb (x y : PieceSymbol) : bool :=
  match x, y with
  | Pawn, Pawn | Knight, Knight | Bishop, Bishop
  | Rook, Rook | Queen, Queen | King, King => true
  | _, _ => false
  end.

(* an entry of game.board() *)
Record Piece : Type := { sq_type : PieceSymbol; sq_color : Color }.

(* an entry of game.moves({ verbose: true }) *)
Record VerboseMove : Type := {
  from : string;
  to : string;
  piece : PieceSymbol;
  captured : option PieceSymbol;
  promotion : option PieceSymbol;
  san : string
}.

(* type MoveObj = { from; to; promotion? } *)
Record MoveObj : Type := {
  o_from : string;
  o_to : string;
  o_promotion : option PieceSymbol
}.

Inductive AiMode : Type := random | greedy | minimax.

(** The interface of chess.js the code uses.  [move] gives the object's
    state after an accepted move and [None] when the engine rejects the
    move: the object is then unchanged and the call does not return,
    chess.js raises an Error ("Invalid move"). *)
Class RulesEngine (Chess : Type) : Type := {
  newChess : string -> Chess;                      (* new Chess(fen) *)
  fen : Chess -> string;
  board : Chess -> list (list (option Piece));
  turn : Chess -> Color;
  moves : Chess -> list VerboseMove;
  move : Chess -> MoveObj -> option Chess;
  undo : Chess -> Chess;
  inCheck : Chess -> bool;
  isCheckmate : Chess -> bool;
  isDraw : Chess -> bool;
  isStalemate : Chess -> bool;
  isInsufficientMaterial : Chess -> bool;
  isThreefoldRepetition : Chess -> bool;
  isGameOver : Chess -> bool
}.

(* str.includes(c) for a one-character needle *)
Fixpoint includes (c : ascii) (s : string) : bool :=
  match s with
  | EmptyString => false
  | String a s' => Ascii.eqb a c || includes c s'
  end.

(* x ?? d *)
Definition nullish {A : Type} (x : option A) (d : A) : A :=
  match x with Some v => v | None => d end.

(* Math.floor(Math.random() * len), for the draw r of Math.random().  The
   product is taken exactly here; the code rounds it to a double.  The two
   agree whenever the exact product is itself a double, and for a draw
   below 1 the rounded product stays below len as the exact one does. *)
Definition randomIndex (r : Q) (len : nat) : Z :=
  Qfloor (r * inject_Z (Z.of_nat len)).

(* ms[i]: undefined outside the array *)
Definition at_index {A : Type} (ms : list A) (i : Z) : option A :=
  if i <? 0 then None else nth_error ms (Z.to_nat i).

(** ** The state monad of one mutable [Chess] object *)

Section Monad.
Context {Chess : Type}.

Definition M (A : Type) : Type := Chess -> A * Chess.

Definition ret {A : Type} (a : A) : M A := fun g => (a, g).

Definition bind {A B : Type} (c : M A) (k : A -> M B) : M B :=
  fun g => let (a, g') := c g in k a g'.

Definition gets {A : Type} (f : Chess -> A) : M A := fun g => (f g, g).

Definition modify (f : Chess -> Chess) : M unit := fun g => (tt, f g).

(* a computation that leaves the object as it found it *)
Definition restores {A : Type} (c : M A) : Prop :=
  forall game : Chess, snd (c game) = game.
End Monad.

Notation "x <- c ;; k" := (bind c (fun x => k))
  (at level 61, c at next level, right associativity).
Notation "c ;;; k" := (bind c (fun _ => k))
  (at level 61, right associativity).

Section EngineOps.
Context {Chess : Type} `{RulesEngine Chess}.

(* the object after game.move(o) inside a search.  The searches only play
   moves taken from game.moves(), which the engine accepts; for a move it
   rejects the object is left as it is *)
Definition after_move (game : Chess) (o : MoveObj) : Chess :=
  match move game o with
  | Some game' => game'
  | None => game
  end.

(* game.move(o) as a statement *)
Definition game_move (o : MoveObj) : M unit :=
  modify (fun game => after_move game o).

(* game.undo() as a statement *)
Definition game_undo : M unit := modify undo.

(** The contract of section 6 of the specification: a move taken from
    the legal moves is accepted, and undo is its exact inverse. *)
Definition LawfulEngine : Prop :=
  forall (game : Chess) (m : VerboseMove),
    In m (moves game) ->
    exists game',
      move game {| o_from := from m; o_to := to m;
                   o_promotion := promotion m |} = Some game' /\
      undo game' = game.
End EngineOps.

(** ** The foreground implementation: [src/App.tsx] *)

Module Main.

(* const VAL: Record<string, number> *)
Definition VAL (key : PieceSymbol) : option Z :=
  match key with
  | Pawn => Some 100
  | Knight => Some 320
  | Bishop => Some 330
  | Rook => Some 500
  | Queen => Some 900
  | King => Some 0
  end.

Definition toShort (m : VerboseMove) : MoveObj :=
  match promotion m with
  | Some pr => {| o_from := from m; o_to := to m; o_promotion := Some pr |}
  | None => {| o_from := from m; o_to := to m; o_promotion := None |}
  end.

(* toShort(ms[i]); ms[i] is undefined outside the array, where the call
   raises a TypeError: Math.random() < 1 keeps the index inside *)
Definition toShort_at (ms : list VerboseMove) (i : Z) : option MoveObj :=
  option_map toShort (at_index ms i).

(* the body of greedyPick's loop: the one-ply score s of a move *)
Definition greedyScore (m : VerboseMove) : Z :=
  let s := 0 in
  let s := match captured m with
           | Some c => s + (nullish (VAL c) 0 - nullish (VAL (piece m)) 0 + 1)
           | None => s
           end in
  if includes "#" (san m) then s + 1000000000
  else if includes "+" (san m) then s + 5
  else s.

(* for (const m of ms) { ...; if (s > bestScore) { bestScore = s; best = m } } *)
Fixpoint greedyLoop (ms : list VerboseMove) (best : option VerboseMove)
  (bestScore : Z) : option VerboseMove * Z :=
  match ms with
  | [] => (best, bestScore)
  | m :: rest =>
      let s := greedyScore m in
      if s >? bestScore then greedyLoop rest (Some m) s
      else greedyLoop rest best bestScore
  end.

Section WithEngine.
Context {Chess : Type} `{RulesEngine Chess}.

Definition randomPick (r : Q) : M (option MoveObj) :=
  ms <- gets moves ;;
  match ms with
  | [] => ret None
  | _ => ret (toShort_at ms (randomIndex r (List.length ms)))
  end.

Definition greedyPick (r : Q) : M (option MoveObj) :=
  ms <- gets moves ;;
  match ms with
  | [] => ret None
  | _ =>
      let (best, bestScore) := greedyLoop ms None (-1000000000000000) in
      match best with
      | Some m => ret (Some (toShort m))
      | None => ret (toShort_at ms (randomIndex r (List.length ms)))
      end
  end.

(* for (const row of board) for (const sq of row) { ... } *)
Definition materialRow (score : Z) (row : list (option Piece)) : Z :=
  fold_left
    (fun score sq =>
       match sq with
       | None => score
       | Some pc =>
           let v := nullish (VAL (sq_type pc)) 0 in
           score + (match sq_color pc with White => v | Black => - v end)
       end)
    row score.

Definition evaluate (game : Chess) : Z :=
  let score := fold_left materialRow (board game) 0 in
  let turn_ := turn game in
  let legal := Z.of_nat (List.length (map san (moves game))) in
  let score :=
    score + (match turn_ with White => 1 | Black => -1 end) * Z.min legal 30 in
  let score :=
    if inCheck game
    then score + (match turn_ with White => -15 | Black => 15 end)
    else score in
  if isCheckmate game
  then match turn_ with White => -1000000000 | Black => 1000000000 end
  else if isDraw game || isStalemate game || isInsufficientMaterial game
          || isThreefoldRepetition game
  then 0
  else score.

Definition evaluateM : M Num := gets (fun game => Fin (evaluate game)).

(* the loop of search when White is to move; [rec] is search(depth - 1, ., .) *)
Fixpoint searchWhite (rec : Num -> Num -> M Num) (beta : Num)
  (mv : list VerboseMove) (val alpha : Num) : M Num :=
  match mv with
  | [] => ret val
  | m :: rest =>
      game_move (toShort m) ;;;
      child <- rec alpha beta ;;
      game_undo ;;;
      let val := Nmax val child in
      let alpha := Nmax alpha val in
      if Ngeb alpha beta then ret val
      else searchWhite rec beta rest val alpha
  end.

(* the loop of search when Black is to move *)
Fixpoint searchBlack (rec : Num -> Num -> M Num) (alpha : Num)
  (mv : list VerboseMove) (val beta : Num) : M Num :=
  match mv with
  | [] => ret val
  | m :: rest =>
      game_move (toShort m) ;;;
      child <- rec alpha beta ;;
      game_undo ;;;
      let val := Nmin val child in
      let beta := Nmin beta val in
      if Ngeb alpha beta then ret val
      else searchBlack rec alpha rest val beta
  end.

Fixpoint search (depth : nat) (alpha beta : Num) : M Num :=
  match depth with
  | O => evaluateM
  | S depth' =>
      over <- gets isGameOver ;;
      if over then evaluateM
      else
        mv <- gets moves ;;
        match mv with
        | [] => evaluateM
        | _ =>
            turn_ <- gets turn ;;
            match turn_ with
            | White => searchWhite (search depth') beta mv NegInf alpha
            | Black => searchBlack (search depth') alpha mv PosInf beta
            end
        end
  end.

(* v > bestScore for White, v < bestScore for Black *)
Definition improves (aiWhite : bool) (v bestScore : Num) : bool :=
  if aiWhite then Ngtb v bestScore else Nltb v bestScore.

(* the loop over the root moves; depth is depthLimit - 1 *)
Fixpoint rootLoop (depth : nat) (aiWhite : bool) (root : list VerboseMove)
  (best : option VerboseMove) (bestScore : Num)
  : M (option VerboseMove * Num) :=
  match root with
  | [] => ret (best, bestScore)
  | m :: rest =>
      game_move (toShort m) ;;;
      v <- search depth NegInf PosInf ;;
      game_undo ;;;
      if improves aiWhite v bestScore
      then rootLoop depth aiWhite rest (Some m) v
      else rootLoop depth aiWhite rest best bestScore
  end.

(* lines 89-96 of minimaxPickMain: best and bestScore after the loop over
   the root moves.  depthLimit is an integer >= 1 (the component offers
   2, 3 and 4), so depthLimit - 1 is a natural number. *)
Definition rootSearch (depthLimit : nat) (aiColor : Color)
  (root : list VerboseMove) : M (option VerboseMove * Num) :=
  let aiWhite := Color_eqb aiColor White in
  rootLoop (depthLimit - 1) aiWhite root None
    (if aiWhite then NegInf else PosInf).

Definition minimaxPickMain (depthLimit : nat) (aiColor : Color)
  : M (option MoveObj) :=
  root <- gets moves ;;
  match root with
  | [] => ret None
  | _ =>
      res <- rootSearch depthLimit aiColor root ;;
      match fst res with
      | Some m => ret (Some (toShort m))
      | None => ret None
      end
  end.

End WithEngine.
End Main.

(** ** The background implementation: [src/engine/ai.worker.ts] *)

Module Worker.

(* type Req, type Res *)
Record Req : Type := {
  req_id : Z;
  req_fen : string;
  req_mode : AiMode;
  req_depth : nat;
  req_aiColor : Color
}.

Record Res : Type := { res_id : Z; res_move : option MoveObj }.

Definition VAL (key : PieceSymbol) : option Z :=
  match key with
  | Pawn => Some 100
  | Knight => Some 320
  | Bishop => Some 330
  | Rook => Some 500
  | Queen => Some 900
  | King => Some 0
  end.

Definition toShort (m : VerboseMove) : MoveObj :=
  match promotion m with
  | Some pr => {| o_from := from m; o_to := to m; o_promotion := Some pr |}
  | None => {| o_from := from m; o_to := to m; o_promotion := None |}
  end.

Definition toShort_at (moves : list VerboseMove) (i : Z) : option MoveObj :=
  option_map toShort (at_index moves i).

Definition greedyScore (m : VerboseMove) : Z :=
  let s := 0 in
  let s := match captured m with
           | Some c => s + (nullish (VAL c) 0 - nullish (VAL (piece m)) 0 + 1)
           | None => s
           end in
  if includes "#" (san m) then s + 1000000000
  else if includes "+" (san m) then s + 5
  else s.

Fixpoint greedyLoop (moves : list VerboseMove) (best : option VerboseMove)
  (bestScore : Z) : option VerboseMove * Z :=
  match moves with
  | [] => (best, bestScore)
  | m :: rest =>
      let s := greedyScore m in
      if s >? bestScore then greedyLoop rest (Some m) s
      else greedyLoop rest best bestScore
  end.

Section WithEngine.
Context {Chess : Type} `{RulesEngine Chess}.

Definition randomPicker (r : Q) : M (option MoveObj) :=
  ms <- gets moves ;;
  match ms with
  | [] => ret None
  | _ => ret (toShort_at ms (randomIndex r (List.length ms)))
  end.

Definition greedyPicker (r : Q) : M (option MoveObj) :=
  ms <- gets moves ;;
  match ms with
  | [] => ret None
  | _ =>
      let (best, bestScore) := greedyLoop ms None (-1000000000000000) in
      match best with
      | Some m => ret (Some (toShort m))
      | None => ret (toShort_at ms (randomIndex r (List.length ms)))
      end
  end.

Definition materialRow (score : Z) (row : list (option Piece)) : Z :=
  fold_left
    (fun score sq =>
       match sq with
       | None => score
       | Some pc =>
           let v := nullish (VAL (sq_type pc)) 0 in
           score + (match sq_color pc with White => v | Black => - v end)
       end)
    row score.

Definition evaluate (game : Chess) : Z :=
  let score := fold_left materialRow (board game) 0 in
  let turn_ := turn game in
  let legal := Z.of_nat (List.length (map san (moves game))) in
  let score :=
    score + (match turn_ with White => 1 | Black => -1 end) * Z.min legal 30 in
  let score :=
    if inCheck game
    then score + (match turn_ with White => -15 | Black => 15 end)
    else score in
  if isCheckmate game
  then match turn_ with White => -1000000000 | Black => 1000000000 end
  else if isDraw game || isStalemate game || isInsufficientMaterial game
          || isThreefoldRepetition game
  then 0
  else score.

Definition evaluateM : M Num := gets (fun game => Fin (evaluate game)).

Fixpoint searchWhite (rec : Num -> Num -> M Num) (beta : Num)
  (mv : list VerboseMove) (val alpha : Num) : M Num :=
  match mv with
  | [] => ret val
  | m :: rest =>
      game_move (toShort m) ;;;
      child <- rec alpha beta ;;
      game_undo ;;;
      let val := Nmax val child in
      let alpha := Nmax alpha val in
      if Ngeb alpha beta then ret val
      else searchWhite rec beta rest val alpha
  end.

Fixpoint searchBlack (rec : Num -> Num -> M Num) (alpha : Num)
  (mv : list VerboseMove) (val beta : Num) : M Num :=
  match mv with
  | [] => ret val
  | m :: rest =>
      game_move (toShort m) ;;;
      child <- rec alpha beta ;;
      game_undo ;;;
      let val := Nmin val child in
      let beta := Nmin beta val in
      if Ngeb alpha beta then ret val
      else searchBlack rec alpha rest val beta
  end.

Fixpoint search (depth : nat) (alpha beta : Num) : M Num :=
  match depth with
  | O => evaluateM
  | S depth' =>
      over <- gets isGameOver ;;
      if over then evaluateM
      else
        mv <- gets moves ;;
        match mv with
        | [] => evaluateM
        | _ =>
            turn_ <- gets turn ;;
            match turn_ with
            | White => searchWhite (search depth') beta mv NegInf alpha
            | Black => searchBlack (search depth') alpha mv PosInf beta
            end
        end
  end.

Definition improves (aiIsWhite : bool) (v bestScore : Num) : bool :=
  if aiIsWhite then Ngtb v bestScore else Nltb v bestScore.

Fixpoint rootLoop (depth : nat) (aiIsWhite : bool) (root : list VerboseMove)
  (best : option VerboseMove) (bestScore : Num)
  : M (option VerboseMove * Num) :=
  match root with
  | [] => ret (best, bestScore)
  | m :: rest =>
      game_move (toShort m) ;;;
      v <- search depth NegInf PosInf ;;
      game_undo ;;;
      if improves aiIsWhite v bestScore
      then rootLoop depth aiIsWhite rest (Some m) v
      else rootLoop depth aiIsWhite rest best bestScore
  end.

(* lines 99-109 of minimaxPick: best and bestScore after the root loop *)
Definition rootSearch (depthLimit : nat) (aiColor : Color)
  (root : list VerboseMove) : M (option VerboseMove * Num) :=
  let aiIsWhite := Color_eqb aiColor White in
  rootLoop (depthLimit - 1) aiIsWhite root None
    (if aiIsWhite then NegInf else PosInf).

Definition minimaxPick (depthLimit : nat) (aiColor : Color)
  : M (option MoveObj) :=
  root <- gets moves ;;
  match root with
  | [] => ret None
  | _ =>
      res <- rootSearch depthLimit aiColor root ;;
      match fst res with
      | Some m => ret (Some (toShort m))
      | None => ret None
      end
  end.

(* self.onmessage: the posted response; r is the draw of Math.random() in
   this context *)
Definition onmessage (r : Q) (e : Req) : Res :=
  let game : Chess := newChess (req_fen e) in
  let move_ :=
    match req_mode e with
    | random => fst (randomPicker r game)
    | greedy => fst (greedyPicker r game)
    | minimax => fst (minimaxPick (req_depth e) (req_aiColor e) game)
    end in
  {| res_id := req_id e; res_move := move_ |}.

End WithEngine.
End Worker.

(** ** The dispatch logic of the React component: [src/App.tsx], [App] *)

Module App.

Inductive Side : Type := white | black.           (* aiPlays *)

(* how a call of a handler ends: it returns, or an exception escapes it *)
Inductive Completion (A : Type) : Type :=
| Normal (a : A)
| Throw.
Arguments Normal {A} a.
Arguments Throw {A}.

(* the statements after a call run only when the call returns *)
Definition andThen {A B : Type} (c : Completion A) (k : A -> Completion B)
  : Completion B :=
  match c with
  | Normal a => k a
  | Throw => Throw
  end.

Section WithEngine.
Context {Chess : Type} `{RulesEngine Chess}.

(* the refs and the state of the component *)
Record State : Type := {
  gameRef : Chess;            (* gameRef.current *)
  thinkingRef : bool;         (* thinkingRef.current *)
  reqIdRef : Z;               (* reqIdRef.current *)
  workerRef : bool;           (* workerRef.current is a Worker *)
  fenState : string;          (* fen *)
  isThinking : bool;
  playVsAI : bool;
  aiPlays : Side;
  aiMode : AiMode;
  depth : nat
}.

(* what the closure doFallback has captured *)
Record Fallback : Type := {
  fb_g : Chess;
  fb_aiMode : AiMode;
  fb_depth : nat;
  fb_aiColor : Color
}.

(* what a handler hands to the environment *)
Inductive Effect : Type :=
| PostMessage (msg : Worker.Req)
| SetTimeout (guarded : bool) (cb : Fallback) (delay : Z).

(* gameRef.current = g, for the object after an accepted move *)
Definition with_game (st : State) (g : Chess) : State :=
  {| gameRef := g; thinkingRef := thinkingRef st; reqIdRef := reqIdRef st;
     workerRef := workerRef st; fenState := fenState st;
     isThinking := isThinking st; playVsAI := playVsAI st;
     aiPlays := aiPlays st; aiMode := aiMode st; depth := depth st |}.

(* setFen(f) *)
Definition setFen (f : string) (st : State) : State :=
  {| gameRef := gameRef st; thinkingRef := thinkingRef st;
     reqIdRef := reqIdRef st; workerRef := workerRef st; fenState := f;
     isThinking := isThinking st; playVsAI := playVsAI st;
     aiPlays := aiPlays st; aiMode := aiMode st; depth := depth st |}.

(* setIsThinking(v); thinkingRef.current = v *)
Definition setThinking (v : bool) (st : State) : State :=
  {| gameRef := gameRef st; thinkingRef := v; reqIdRef := reqIdRef st;
     workerRef := workerRef st; fenState := fenState st; isThinking := v;
     playVsAI := playVsAI st; aiPlays := aiPlays st; aiMode := aiMode st;
     depth := depth st |}.

(* ++reqIdRef.current *)
Definition bumpReqId (st : State) : State :=
  {| gameRef := gameRef st; thinkingRef := thinkingRef st;
     reqIdRef := reqIdRef st + 1; workerRef := workerRef st;
     fenState := fenState st; isThinking := isThinking st;
     playVsAI := playVsAI st; aiPlays := aiPlays st; aiMode := aiMode st;
     depth := depth st |}.

(* setPlayVsAI(v => !v) *)
Definition flipPlayVsAI (st : State) : State :=
  {| gameRef := gameRef st; thinkingRef := thinkingRef st;
     reqIdRef := reqIdRef st; workerRef := workerRef st;
     fenState := fenState st; isThinking := isThinking st;
     playVsAI := negb (playVsAI st); aiPlays := aiPlays st;
     aiMode := aiMode st; depth := depth st |}.

(* if (move) { const ok = gameRef.current.move(move);
               if (ok) setFen(gameRef.current.fen()) }
   For a move the engine rejects, gameRef.current.move raises: ok is never
   falsy, and the exception leaves the handler. *)
Definition applyResult (mv : option MoveObj) (st : State)
  : Completion State :=
  match mv with
  | Some o =>
      match move (gameRef st) o with
      | Some g' => Normal (setFen (fen g') (with_game st g'))
      | None => Throw
      end
  | None => Normal st
  end.

(* w.onmessage *)
Definition onmessage (e : Worker.Res) (st : State) : Completion State :=
  if negb (Worker.res_id e =? reqIdRef st) then Normal st
  else
    andThen (applyResult (Worker.res_move e) st)
      (fun st => Normal (setThinking false st)).

(* lines 157-160 of doFallback: the move of the chosen strategy; r is the
   draw of Math.random() in the foreground *)
Definition fallbackMove (cb : Fallback) (r : Q) : option MoveObj :=
  match fb_aiMode cb with
  | random => fst (Main.randomPick r (fb_g cb))
  | greedy => fst (Main.greedyPick r (fb_g cb))
  | minimax =>
      fst (Main.minimaxPickMain (fb_depth cb) (fb_aiColor cb) (fb_g cb))
  end.

Definition doFallback (cb : Fallback) (r : Q) (st : State)
  : Completion State :=
  let move_ := fallbackMove cb r in
  andThen (applyResult move_ st)
    (fun st => Normal (setThinking false st)).

(* the callbacks given to setTimeout: doFallback itself, or
   () => { if (!thinkingRef.current) return; doFallback() } *)
Definition timerFires (guarded : bool) (cb : Fallback) (r : Q) (st : State)
  : Completion State :=
  if guarded && negb (thinkingRef st) then Normal st
  else doFallback cb r st.

Definition aiColorOf (s : Side) : Color :=
  match s with white => White | black => Black end.

Definition requestAiMoveWithFallback (st : State) : State * list Effect :=
  let aiColor := aiColorOf (aiPlays st) in
  let g : Chess := newChess (fen (gameRef st)) in
  let cb := {| fb_g := g; fb_aiMode := aiMode st; fb_depth := depth st;
               fb_aiColor := aiColor |} in
  if negb (workerRef st) then (st, [SetTimeout false cb 0])
  else
    let st := bumpReqId st in
    let id := reqIdRef st in
    (st,
     [PostMessage {| Worker.req_id := id; Worker.req_fen := fen g;
                     Worker.req_mode := aiMode st;
                     Worker.req_depth := depth st;
                     Worker.req_aiColor := aiColor |};
      SetTimeout true cb 2500]).

Definition maybeAIMove (st : State) : State * list Effect :=
  let game := gameRef st in
  let aiTurn := aiColorOf (aiPlays st) in
  if negb (playVsAI st) || isGameOver game
     || negb (Color_eqb (turn game) aiTurn)
  then (st, [])
  else if thinkingRef st then (st, [])
  else requestAiMoveWithFallback (setThinking true st).

(* onDrop: the returned boolean, the state and the effects.  For a drop
   the engine rejects, gameRef.current.move raises, so that
   if (!mv) return false is not reached. *)
Definition onDrop (source target : string) (st : State)
  : Completion (bool * State * list Effect) :=
  if isThinking st then Normal (false, st, [])
  else
    match move (gameRef st)
            {| o_from := source; o_to := target;
               o_promotion := Some Queen |} with
    | None => Throw
    | Some g' =>
        let st := setFen (fen g') (with_game st g') in
        let (st, effs) := maybeAIMove st in
        Normal (true, st, effs)
    end.

(* the button "Mode": setPlayVsAI(v => !v), then the effect on
   [playVsAI, aiPlays, aiMode, depth] runs maybeAIMove *)
Definition clickMode (st : State) : State * list Effect :=
  maybeAIMove (flipPlayVsAI st).

End WithEngine.
End App.

(** ** What the specification compares the code with *)

Module Reference.

(** Section 4.1, step 1: the material value of a piece kind. *)
Definition pieceValue (kind : PieceSymbol) : Z :=
  match kind with
  | Pawn => 100
  | Knight => 320
  | Bishop => 330
  | Rook => 500
  | Queen => 900
  | King => 0
  end.

(** White pieces add, Black pieces subtract. *)
Definition signedValue (pc : Piece) : Z :=
  match sq_color pc with
  | White => pieceValue (sq_type pc)
  | Black => - pieceValue (sq_type pc)
  end.

(** The pieces on the occupied squares of a board. *)
Definition occupied (rows : list (list (option Piece))) : list Piece :=
  flat_map (fun sq => match sq with Some pc => [pc] | None => [] end)
    (List.concat rows).

Definition sumZ (l : list Z) : Z := fold_right Z.add 0 l.

(** Section 4.3: the one-ply score of a move. *)
Definition captureTerm (m : VerboseMove) : Z :=
  match captured m with
  | Some c => pieceValue c - pieceValue (piece m) + 1
  | None => 0
  end.

Definition marksMate (m : VerboseMove) : bool := includes "#" (san m).
Definition marksCheck (m : VerboseMove) : bool := includes "+" (san m).

Definition notationTerm (m : VerboseMove) : Z :=
  if marksMate m then 1000000000 else if marksCheck m then 5 else 0.

Definition onePlyScore (m : VerboseMove) : Z :=
  0 + captureTerm m + notationTerm m.

Section WithEngine.
Context {Chess : Type} `{RulesEngine Chess}.

Definition material (game : Chess) : Z :=
  sumZ (map signedValue (occupied (board game))).

(** Section 4.1, step 2: min(legal-move-count, 30) in the mover's favour. *)
Definition mobility (game : Chess) : Z :=
  let capped := Z.min (Z.of_nat (List.length (moves game))) 30 in
  match turn game with White => capped | Black => - capped end.

(** Section 4.1, step 3: the side to move in check loses 15. *)
Definition checkTerm (game : Chess) : Z :=
  if inCheck game
  then match turn game with White => -15 | Black => 15 end
  else 0.

(** The position reached by a legal move: a child in the game tree. *)
Definition child (game : Chess) (m : VerboseMove) : Chess :=
  after_move game (Main.toShort m).

(** Unpruned minimax of section 4.4 over the game tree below [game]:
    every move of every node is visited, in enumeration order. *)
Fixpoint minimaxValue (depth : nat) (game : Chess) : Num :=
  match depth with
  | O => Fin (Main.evaluate game)
  | S depth' =>
      if isGameOver game then Fin (Main.evaluate game)
      else
        match moves game with
        | [] => Fin (Main.evaluate game)
        | mv =>
            match turn game with
            | White =>
                fold_left
                  (fun val m => Nmax val (minimaxValue depth' (child game m)))
                  mv NegInf
            | Black =>
                fold_left
                  (fun val m => Nmin val (minimaxValue depth' (child game m)))
                  mv PosInf
            end
        end
  end.

(** Root selection of section 4.4 with the unpruned values: a child
    replaces the best one when it is strictly better for the AI. *)
Definition betterFor (aiColor : Color) (v bestScore : Num) : bool :=
  match aiColor with
  | White => Ngtb v bestScore
  | Black => Nltb v bestScore
  end.

Definition fullMinimaxPick (depthLimit : nat) (aiColor : Color)
  (game : Chess) : option VerboseMove * Num :=
  fold_left
    (fun acc m =>
       let v := minimaxValue (depthLimit - 1) (child game m) in
       if betterFor aiColor v (snd acc) then (Some m, v) else acc)
    (moves game)
    (None, match aiColor with White => NegInf | Black => PosInf end).

End WithEngine.
End Reference.

(** ** Statements the proofs go through *)

(** [m] is the first element of [ms] with the greatest one-ply score. *)
Definition firstMax (ms : list VerboseMove) (m : VerboseMove) : Prop :=
  exists before after,
    ms = before ++ m :: after /\
    (forall x, In x before ->
               Reference.onePlyScore x < Reference.onePlyScore m) /\
    (forall x, In x after ->
               Reference.onePlyScore x <= Reference.onePlyScore m).

Section Soundness.
Context {Chess : Type} `{RulesEngine Chess}.

(* what the loops need from search(depth - 1, ., .) on the children *)
Definition sound_below (rec : Num -> Num -> M Num) (F : VerboseMove -> Num)
  (game : Chess) : Prop :=
  forall (m : VerboseMove) (a c : Num),
    In m (moves game) -> Nlt a c ->
    snd (rec a c (Reference.child game m)) = Reference.child game m /\
    within a c (F m) (fst (rec a c (Reference.child game m))).

End Soundness.

(** ** An engine over explicit game trees

    A position carries what the interface reports about it and its legal
    moves with the positions they lead to; the object keeps the stack of
    positions it came through, as chess.js keeps its history. *)

Module Toy.

Record Flags : Type := {
  f_inCheck : bool;
  f_isCheckmate : bool;
  f_isDraw : bool;
  f_isStalemate : bool;
  f_isInsufficientMaterial : bool;
  f_isThreefoldRepetition : bool;
  f_isGameOver : bool
}.

#[warnings="-register-all"]
Inductive Pos : Type :=
| MkPos (label : string) (rows : list (list (option Piece)))
    (side : Color) (flags : Flags) (kids : list (VerboseMove * Pos)).

Definition label (p : Pos) : string := let (l, _, _, _, _) := p in l.
Definition rows (p : Pos) := let (_, b, _, _, _) := p in b.
Definition side (p : Pos) : Color := let (_, _, s, _, _) := p in s.
Definition flags (p : Pos) : Flags := let (_, _, _, f, _) := p in f.
Definition kids (p : Pos) : list (VerboseMove * Pos) :=
  let (_, _, _, _, k) := p in k.

Record Game : Type := { cur : Pos; hist : list Pos }.

(* chess.js accepts { from, to, promotion } for a legal move with these
   squares; the promotion piece must agree when the move is a promotion *)
Definition matches (o : MoveObj) (entry : VerboseMove * Pos) : bool :=
  let m := fst entry in
  String.eqb (from m) (o_from o) && String.eqb (to m) (o_to o) &&
  match promotion m with
  | None => true
  | Some pr =>
      match o_promotion o with
      | Some pr' => PieceSymbol_eqb pr pr'
      | None => false
      end
  end.

Definition play (g : Game) (o : MoveObj) : option Game :=
  match find (matches o) (kids (cur g)) with
  | Some (_, p') => Some {| cur := p'; hist := cur g :: hist g |}
  | None => None
  end.

Definition takeBack (g : Game) : Game :=
  match hist g with
  | [] => g
  | p :: h => {| cur := p; hist := h |}
  end.

Definition noFlags : Flags :=
  {| f_inCheck := false; f_isCheckmate := false; f_isDraw := false;
     f_isStalemate := false; f_isInsufficientMaterial := false;
     f_isThreefoldRepetition := false; f_isGameOver := false |}.

Definition emptyPos : Pos := MkPos "" [] White noFlags [].

(* new Chess(fen): the position of the book with that label *)
Definition load (book : list Pos) (s : string) : Game :=
  match find (fun p => String.eqb (label p) s) book with
  | Some p => {| cur := p; hist := [] |}
  | None => {| cur := emptyPos; hist := [] |}
  end.

Definition engineOf (book : list Pos) : RulesEngine Game := {|
  newChess := load book;
  fen := fun g => label (cur g);
  board := fun g => rows (cur g);
  turn := fun g => side (cur g);
  moves := fun g => map fst (kids (cur g));
  move := play;
  undo := takeBack;
  inCheck := fun g => f_inCheck (flags (cur g));
  isCheckmate := fun g => f_isCheckmate (flags (cur g));
  isDraw := fun g => f_isDraw (flags (cur g));
  isStalemate := fun g => f_isStalemate (flags (cur g));
  isInsufficientMaterial := fun g => f_isInsufficientMaterial (flags (cur g));
  isThreefoldRepetition := fun g => f_isThreefoldRepetition (flags (cur g));
  isGameOver := fun g => f_isGameOver (flags (cur g))
|}.

End Toy.


(** ** Concrete positions for the tree engine *)

Module Positions.
Import Toy.
Local Open Scope string_scope.
Local Open Scope list_scope.

(* a move that is not a promotion *)
Definition mv (f t : string) (pc : PieceSymbol) (cap : option PieceSymbol)
  (notation : string) : VerboseMove :=
  {| from := f; to := t; piece := pc; captured := cap; promotion := None;
     san := notation |}.

Definition on (c : Color) (kind : PieceSymbol) : option Piece :=
  Some {| sq_type := kind; sq_color := c |}.

Definition no : option Piece := None.

Definition emptyRank : list (option Piece) := repeat no 8.

Definition overFlags (check mate draw stale insufficient : bool) : Flags :=
  {| f_inCheck := check; f_isCheckmate := mate; f_isDraw := draw;
     f_isStalemate := stale; f_isInsufficientMaterial := insufficient;
     f_isThreefoldRepetition := false; f_isGameOver := true |}.

(** *** A search tree three plies deep

    Leaves hold [k] white pawns, so that evaluate gives 100 * k there. *)

Definition leaf (name : string) (k : nat) (c : Color) : Pos :=
  MkPos name [repeat (on White Pawn) k] c noFlags [].

Definition inner (name : string) (c : Color) (x y : Pos) : Pos :=
  match c with
  | White =>
      MkPos name [] White noFlags
        [(mv "c2" "c3" Pawn None "c3", x); (mv "d2" "d3" Pawn None "d3", y)]
  | Black =>
      MkPos name [] Black noFlags
        [(mv "a7" "a6" Pawn None "a6", x); (mv "b7" "b6" Pawn None "b6", y)]
  end.

Definition tree : Pos :=
  MkPos "R" [] White noFlags
    [(mv "a2" "a3" Pawn None "a3",
      inner "Ra" Black
        (inner "Rax" White (leaf "Raxp" 3 Black) (leaf "Raxq" 5 Black))
        (inner "Ray" White (leaf "Rayp" 7 Black) (leaf "Rayq" 1 Black)));
     (mv "b2" "b3" Pawn None "b3",
      inner "Rb" Black
        (inner "Rbx" White (leaf "Rbxp" 2 Black) (leaf "Rbxq" 4 Black))
        (inner "Rby" White (leaf "Rbyp" 6 Black) (leaf "Rbyq" 8 Black)))].

(** *** Terminal positions *)

(* 7k/6Q1/6K1/8/8/8/8/8 b - - 100 60: Black is mated, and the fifty-move
   counter makes isDraw hold as well *)
Definition matedAfterFiftyMoves : Pos :=
  MkPos "7k/6Q1/6K1/8/8/8/8/8 b - - 100 60"
    [[no; no; no; no; no; no; no; on Black King];
     [no; no; no; no; no; no; on White Queen; no];
     [no; no; no; no; no; no; on White King; no];
     emptyRank; emptyRank; emptyRank; emptyRank; emptyRank]
    Black (overFlags true true true false false) [].

(* 7k/6Q1/6K1/8/8/8/8/8 b - - 0 60: the same mate without the counter *)
Definition mated : Pos :=
  MkPos "7k/6Q1/6K1/8/8/8/8/8 b - - 0 60"
    [[no; no; no; no; no; no; no; on Black King];
     [no; no; no; no; no; no; on White Queen; no];
     [no; no; no; no; no; no; on White King; no];
     emptyRank; emptyRank; emptyRank; emptyRank; emptyRank]
    Black (overFlags true true false false false) [].

(* 7k/5Q2/6K1/8/8/8/8/8 b - - 0 1: Black has no move and is not in check *)
Definition stalemated : Pos :=
  MkPos "7k/5Q2/6K1/8/8/8/8/8 b - - 0 1"
    [[no; no; no; no; no; no; no; on Black King];
     [no; no; no; no; no; on White Queen; no; no];
     [no; no; no; no; no; no; on White King; no];
     emptyRank; emptyRank; emptyRank; emptyRank; emptyRank]
    Black (overFlags false false true true false) [].

(* 8/8/8/4k3/8/8/4K3/8 w - - 0 1: king against king is drawn by
   insufficient material, and the king still has its eight moves *)
Definition bareKings : Pos :=
  let after (sq : string) :=
    MkPos sq [] Black (overFlags false false true false true) [] in
  MkPos "8/8/8/4k3/8/8/4K3/8 w - - 0 1"
    [emptyRank; emptyRank; emptyRank;
     [no; no; no; no; on Black King; no; no; no];
     emptyRank; emptyRank;
     [no; no; no; no; on White King; no; no; no];
     emptyRank]
    White (overFlags false false true false true)
    (map (fun t => (mv "e2" t King None (String.append "K" t), after t))
       (["d3"; "e3"; "f3"; "d2"; "f2"; "d1"; "e1"; "f1"])).

(** *** Positions for the greedy strategy *)

Definition quiet (name : string) : Pos := MkPos name [] Black noFlags [].

(* 7k/6pp/8/3n4/8/8/P7/3QK3 w - - 0 1: the queen can take the knight *)
Definition queenTakesKnight : VerboseMove :=
  mv "d1" "d5" Queen (Some Knight) "Qxd5".

Definition queenOrQuiet : Pos :=
  MkPos "7k/6pp/8/3n4/8/8/P7/3QK3 w - - 0 1"
    [[no; no; no; no; no; no; no; on Black King];
     [no; no; no; no; no; no; on Black Pawn; on Black Pawn];
     emptyRank;
     [no; no; no; on Black Knight; no; no; no; no];
     emptyRank; emptyRank;
     [on White Pawn; no; no; no; no; no; no; no];
     [no; no; no; on White Queen; on White King; no; no; no]]
    White noFlags
    ([(mv "a2" "a3" Pawn None "a3", quiet "a3");
      (mv "a2" "a4" Pawn None "a4", quiet "a4")]
     ++ map (fun t => (mv "d1" t Queen None (String.append "Q" t), quiet (String.append "Q" t)))
          (["d2"; "d3"; "d4"])
     ++ [(queenTakesKnight, quiet "Qxd5")]
     ++ map (fun t => (mv "d1" t Queen None (String.append "Q" t), quiet (String.append "Q" t)))
          (["c1"; "b1"; "a1"; "c2"; "b3"; "a4"; "e2"; "f3"; "g4"; "h5"])
     ++ map (fun t => (mv "e1" t King None (String.append "K" t), quiet (String.append "K" t)))
          (["d2"; "e2"; "f2"; "f1"])).

(* 7k/6pp/8/3q4/4P3/8/8/4K3 w - - 0 1: the pawn can take the queen *)
Definition pawnTakesQueen : VerboseMove :=
  mv "e4" "d5" Pawn (Some Queen) "exd5".

Definition freeQueen : Pos :=
  MkPos "7k/6pp/8/3q4/4P3/8/8/4K3 w - - 0 1"
    [[no; no; no; no; no; no; no; on Black King];
     [no; no; no; no; no; no; on Black Pawn; on Black Pawn];
     emptyRank;
     [no; no; no; on Black Queen; no; no; no; no];
     [no; no; no; no; on White Pawn; no; no; no];
     emptyRank; emptyRank;
     [no; no; no; no; on White King; no; no; no]]
    White noFlags
    [(mv "e4" "e5" Pawn None "e5", quiet "e5");
     (pawnTakesQueen, quiet "exd5");
     (mv "e1" "e2" King None "Ke2", quiet "Ke2");
     (mv "e1" "f2" King None "Kf2", quiet "Kf2");
     (mv "e1" "f1" King None "Kf1", quiet "Kf1")].

(** *** A short game: 1. e4 and two answers of Black *)

Definition afterE4E5Nf3D5 : Pos :=
  MkPos "1. e4 e5 2. Nf3 d5" [] White noFlags [].

Definition afterE4E5Nf3 : Pos :=
  MkPos "1. e4 e5 2. Nf3" [] Black noFlags
    [(mv "d7" "d5" Pawn None "d5", afterE4E5Nf3D5)].

Definition afterE4E5 : Pos :=
  MkPos "1. e4 e5" [] White noFlags
    [(mv "g1" "f3" Knight None "Nf3", afterE4E5Nf3)].

Definition afterE4D5 : Pos := MkPos "1. e4 d5" [] White noFlags [].

Definition afterE4 : Pos :=
  MkPos "1. e4" [] Black noFlags
    [(mv "e7" "e5" Pawn None "e5", afterE4E5);
     (mv "d7" "d5" Pawn None "d5", afterE4D5)].

Definition initial : Pos :=
  MkPos "start" [] White noFlags
    [(mv "e2" "e4" Pawn None "e4", afterE4)].

(* the positions new Chess(fen) can be asked for *)
Definition book : list Pos :=
  [initial; afterE4; afterE4E5; afterE4E5Nf3; afterE4E5Nf3D5; tree;
   queenOrQuiet; freeQueen; bareKings; mated; matedAfterFiftyMoves;
   stalemated].

#[export] Instance engine : RulesEngine Game := engineOf book.

Definition at_pos (p : Pos) : Game := {| cur := p; hist := [] |}.

(** The component when the human, playing White against the worker-backed
    random AI, is about to make the first move. *)
Definition opening : @App.State Toy.Game :=
  {| App.gameRef := at_pos initial; App.thinkingRef := false;
     App.reqIdRef := 0; App.workerRef := true;
     App.fenState := "start"; App.isThinking := false;
     App.playVsAI := true; App.aiPlays := App.black;
     App.aiMode := random; App.depth := 3 |}.

End Positions.

(** ** A late answer of the worker

    The human plays 1. e4 against the random AI; the worker does not answer
    within the deadline and the fallback moves; the human switches to
    "Human vs Human" and plays 2. Nf3; then the worker's answer to the
    first request arrives. *)

Module Scenario.
Import Positions.
Local Open Scope string_scope.
Local Open Scope list_scope.

(* the state a handler leaves behind *)
Definition settled (before : @App.State Toy.Game)
  (c : App.Completion (@App.State Toy.Game)) : @App.State Toy.Game :=
  match c with
  | App.Normal st => st
  | App.Throw => before
  end.

(* what the request of the AI's first move carries *)
Definition request : Worker.Req :=
  {| Worker.req_id := 1; Worker.req_fen := "1. e4";
     Worker.req_mode := random; Worker.req_depth := 3;
     Worker.req_aiColor := Black |}.

Definition pending : @App.Fallback Toy.Game :=
  {| App.fb_g := at_pos afterE4; App.fb_aiMode := random;
     App.fb_depth := 3; App.fb_aiColor := Black |}.

(* the state a call of onDrop leaves behind *)
Definition dropped (before : @App.State Toy.Game)
  (c : App.Completion
         (bool * @App.State Toy.Game * list (@App.Effect Toy.Game)))
  : @App.State Toy.Game :=
  match c with
  | App.Normal res => snd (fst res)
  | App.Throw => before
  end.

(* 1. e4 is dropped on the board *)
Definition humanMoved
  : App.Completion
      (bool * @App.State Toy.Game * list (@App.Effect Toy.Game)) :=
  App.onDrop "e2" "e4" opening.

Definition requested : @App.State Toy.Game := dropped opening humanMoved.

(* 2500 ms later the timer fires; Math.random() gives 0 in the foreground *)
Definition fellBack : @App.State Toy.Game :=
  settled requested (App.timerFires true pending 0 requested).

(* the button "Mode" is clicked, then 2. Nf3 is dropped on the board *)
Definition humanVsHuman : @App.State Toy.Game := fst (App.clickMode fellBack).

Definition humanMovedAgain : @App.State Toy.Game :=
  dropped humanVsHuman (App.onDrop "g1" "f3" humanVsHuman).

(* the worker answers the request; Math.random() gave 1/2 there *)
Definition response : Worker.Res :=
  Worker.onmessage (Chess := Toy.Game) (1 # 2) request.

Definition answered : @App.State Toy.Game :=
  settled humanMovedAgain (App.onmessage response humanMovedAgain).

End Scenario.

(** ** The rest of the component: buttons, status line, worker errors *)

Module Controls.

(* setAiMode(m => (m === 'minimax' ? 'greedy' : m === 'greedy' ? 'random'
                                              : 'minimax')) *)
Definition nextMode (m : AiMode) : AiMode :=
  match m with
  | minimax => greedy
  | greedy => random
  | random => minimax
  end.

(* setAiPlays(s => (s === 'black' ? 'white' : 'black')) *)
Definition otherSide (s : App.Side) : App.Side :=
  match s with
  | App.black => App.white
  | App.white => App.black
  end.

Section WithEngine.
Context {Chess : Type} `{RulesEngine Chess}.

(* gameRef.current.reset() of chess.js, which the interface above does not
   list: the object after the call *)
Variable reset : Chess -> Chess.

Local Abbreviation State := (@App.State Chess).
Local Abbreviation Effect := (@App.Effect Chess).
Local Abbreviation Fallback := (@App.Fallback Chess).

Definition setAiPlays (s : App.Side) (st : State) : State :=
  {| App.gameRef := App.gameRef st; App.thinkingRef := App.thinkingRef st;
     App.reqIdRef := App.reqIdRef st; App.workerRef := App.workerRef st;
     App.fenState := App.fenState st; App.isThinking := App.isThinking st;
     App.playVsAI := App.playVsAI st; App.aiPlays := s;
     App.aiMode := App.aiMode st; App.depth := App.depth st |}.

Definition setAiMode (m : AiMode) (st : State) : State :=
  {| App.gameRef := App.gameRef st; App.thinkingRef := App.thinkingRef st;
     App.reqIdRef := App.reqIdRef st; App.workerRef := App.workerRef st;
     App.fenState := App.fenState st; App.isThinking := App.isThinking st;
     App.playVsAI := App.playVsAI st; App.aiPlays := App.aiPlays st;
     App.aiMode := m; App.depth := App.depth st |}.

Definition setDepth (d : nat) (st : State) : State :=
  {| App.gameRef := App.gameRef st; App.thinkingRef := App.thinkingRef st;
     App.reqIdRef := App.reqIdRef st; App.workerRef := App.workerRef st;
     App.fenState := App.fenState st; App.isThinking := App.isThinking st;
     App.playVsAI := App.playVsAI st; App.aiPlays := App.aiPlays st;
     App.aiMode := App.aiMode st; App.depth := d |}.

(* w.onerror *)
Definition onerror (st : State) : State := App.setThinking false st.

(* const updateFen = () => setFen(gameRef.current.fen()) *)
Definition updateFen (st : State) : State :=
  App.setFen (fen (App.gameRef st)) st.

Definition resetGame (st : State) : State * list Effect :=
  let st := App.with_game st (reset (App.gameRef st)) in
  let st := updateFen st in
  App.maybeAIMove st.

(* the buttons "AI plays" and "AI mode" and the depth selector: the state
   setter, then the effect on [playVsAI, aiPlays, aiMode, depth] runs
   maybeAIMove; the selector fires only for a depth that differs *)
Definition clickAiPlays (st : State) : State * list Effect :=
  App.maybeAIMove (setAiPlays (otherSide (App.aiPlays st)) st).

Definition clickAiMode (st : State) : State * list Effect :=
  App.maybeAIMove (setAiMode (nextMode (App.aiMode st)) st).

Definition selectDepth (d : nat) (st : State)
  : State * list Effect :=
  if Nat.eqb d (App.depth st) then (st, [])
  else App.maybeAIMove (setDepth d st).

(* const status = useMemo(...) *)
Definition status (g : Chess) : string :=
  if isCheckmate g then "Checkmate"
  else if isDraw g then "Draw"
  else if isStalemate g then "Stalemate"
  else if isThreefoldRepetition g then "Threefold repetition"
  else if isInsufficientMaterial g then "Insufficient material"
  else if inCheck g
  then String.append (match turn g with White => "White" | Black => "Black" end)
         " in check"
  else String.append (match turn g with White => "White" | Black => "Black" end)
         " to move".

(** What can happen to the component: the user's actions, a timer that
    was set coming due, a message or an error of the worker. *)
Inductive Event : Type :=
| Drop (source target : string)
| ClickNewGame
| ClickMode
| ClickAiPlays
| ClickAiMode
| SelectDepth (d : nat)
| TimerFires (guarded : bool) (cb : Fallback) (r : Q)
| WorkerMessage (e : Worker.Res)
| WorkerError.

(* the state a handler leaves behind *)
Definition completed (before : State) (c : App.Completion State)
  : State :=
  match c with
  | App.Normal st => st
  | App.Throw => before
  end.

(* one turn of the event loop: the handler of the event runs to its end *)
Definition step (ev : Event) (st : State) : State * list Effect :=
  match ev with
  | Drop source target =>
      match App.onDrop source target st with
      | App.Normal res => (snd (fst res), snd res)
      | App.Throw => (st, [])
      end
  | ClickNewGame => resetGame st
  | ClickMode => App.clickMode st
  | ClickAiPlays => clickAiPlays st
  | ClickAiMode => clickAiMode st
  | SelectDepth d => selectDepth d st
  | TimerFires guarded cb r => (completed st (App.timerFires guarded cb r st), [])
  | WorkerMessage e => (completed st (App.onmessage e st), [])
  | WorkerError => (onerror st, [])
  end.

(* the events one after the other, with all effects in order *)
Fixpoint run (evs : list Event) (st : State)
  : State * list Effect :=
  match evs with
  | [] => (st, [])
  | ev :: rest =>
      let (st1, effs1) := step ev st in
      let (st2, effs2) := run rest st1 in
      (st2, effs1 ++ effs2)
  end.

(* the ids of the requests posted to the worker *)
Definition postedIds (effs : list Effect) : list Z :=
  flat_map
    (fun eff =>
       match eff with
       | App.PostMessage msg => [Worker.req_id msg]
       | App.SetTimeout _ _ _ => []
       end)
    effs.

End WithEngine.
End Controls.

(** ** Statements about the choice at the root *)

(* [x] is strictly better than [y] for the colour, or at least as good *)
Definition strictlyBetter (c : Color) (x y : Num) : Prop :=
  match c with
  | White => Nlt y x
  | Black => Nlt x y
  end.

Definition atLeastAsGood (c : Color) (x y : Num) : Prop :=
  match c with
  | White => Nle y x
  | Black => Nle x y
  end.

(** [m] is the first move of [ms] whose value [F] is best for the colour. *)
Definition firstBest (c : Color) (F : VerboseMove -> Num)
  (ms : list VerboseMove) (m : VerboseMove) : Prop :=
  exists before after,
    ms = before ++ m :: after /\
    (forall x, In x before -> strictlyBetter c (F m) (F x)) /\
    (forall x, In x after -> atLeastAsGood c (F m) (F x)).

(* the loop over the root moves, on their values *)
Definition rootStep (c : Color) (F : VerboseMove -> Num)
  (acc : option VerboseMove * Num) (m : VerboseMove)
  : option VerboseMove * Num :=
  if Reference.betterFor c (F m) (snd acc) then (Some m, F m) else acc.

Section RootValue.
Context {Chess : Type} `{RulesEngine Chess}.

(* the unpruned value of the position a root move leads to *)
Definition rootValue (depthLimit : nat) (game : Chess) (m : VerboseMove)
  : Num :=
  Reference.minimaxValue (depthLimit - 1) (Reference.child game m).

(** The AI is due to move and no request is outstanding: what maybeAIMove
    tests before it asks for a move. *)
Definition aiDue (st : @App.State Chess) : Prop :=
  App.playVsAI st = true /\
  isGameOver (App.gameRef st) = false /\
  turn (App.gameRef st) = App.aiColorOf (App.aiPlays st) /\
  App.thinkingRef st = false.

(** The position after the move has been played and displayed, with the
    thinking flags cleared. *)
Definition played (st : @App.State Chess) (g' : Chess) (st' : @App.State Chess)
  : Prop :=
  App.gameRef st' = g' /\
  App.fenState st' = fen g' /\
  App.thinkingRef st' = false /\
  App.isThinking st' = false /\
  App.reqIdRef st' = App.reqIdRef st.

(* the actions of the user, as opposed to timers and the worker *)
Definition userEvent (ev : @Controls.Event Chess) : bool :=
  match ev with
  | Controls.Drop _ _ | Controls.ClickNewGame | Controls.ClickMode
  | Controls.ClickAiPlays | Controls.ClickAiMode
  | Controls.SelectDepth _ => true
  | _ => false
  end.

End RootValue.

(** ** More concrete positions and a run of the component *)

Module Board.
Import Toy Positions Scenario.
Local Open Scope string_scope.
Local Open Scope list_scope.

(* R5k1/5ppp/8/8/8/8/8/4K3 b - - 1 1: mate on the back rank *)
Definition matedOnBackRank : Pos :=
  MkPos "R5k1/5ppp/8/8/8/8/8/4K3 b - - 1 1"
    [[on White Rook; no; no; no; no; no; on Black King; no];
     [no; no; no; no; no; on Black Pawn; on Black Pawn; on Black Pawn];
     emptyRank; emptyRank; emptyRank; emptyRank; emptyRank;
     [no; no; no; no; on White King; no; no; no]]
    Black (overFlags true true false false false) [].

Definition rookMates : VerboseMove := mv "a1" "a8" Rook None "Ra8#".

(* 6k1/5ppp/8/8/8/8/8/R3K3 w - - 0 1: the rook mates on a8 *)
Definition backRank : Pos :=
  MkPos "6k1/5ppp/8/8/8/8/8/R3K3 w - - 0 1"
    [[no; no; no; no; no; no; on Black King; no];
     [no; no; no; no; no; on Black Pawn; on Black Pawn; on Black Pawn];
     emptyRank; emptyRank; emptyRank; emptyRank; emptyRank;
     [on White Rook; no; no; no; on White King; no; no; no]]
    White noFlags
    [(mv "e1" "e2" King None "Ke2", quiet "Ke2");
     (mv "a1" "a7" Rook None "Ra7", quiet "Ra7");
     (rookMates, matedOnBackRank)].

(* the component after 1. e4, before the AI has been asked *)
Definition blackToAnswer : @App.State Toy.Game :=
  {| App.gameRef := at_pos afterE4; App.thinkingRef := false;
     App.reqIdRef := 0; App.workerRef := true;
     App.fenState := "1. e4"; App.isThinking := false;
     App.playVsAI := true; App.aiPlays := App.black;
     App.aiMode := random; App.depth := 3 |}.

(* gameRef.current.reset() on the tree engine *)
Definition newGame (g : Toy.Game) : Toy.Game := at_pos initial.

(* the events of the run with the late answer, and a New Game at the end *)
Definition eventful : list (@Controls.Event Toy.Game) :=
  [Controls.Drop "e2" "e4"; Controls.TimerFires true pending 0;
   Controls.ClickMode; Controls.Drop "g1" "f3";
   Controls.WorkerMessage response; Controls.ClickMode;
   Controls.ClickNewGame; Controls.Drop "e2" "e4"].

End Board.
(** * Properties *)

(** ** The evaluator *)

Section EvaluatorFacts.
Context {Chess : Type} `{RulesEngine Chess}.

Lemma VAL_pieceValue (kind : PieceSymbol) :
  nullish (Main.VAL kind) 0 = Reference.pieceValue kind.
Proof. destruct kind; reflexivity. Qed.

Lemma materialRow_sum (row : list (option Piece)) (score : Z) :
  Main.materialRow score row =
  score + Reference.sumZ
            (map Reference.signedValue
               (flat_map (fun sq => match sq with Some pc => [pc] | None => [] end)
                  row)).
Proof.
  unfold Main.materialRow.
  revert score. induction row as [|sq row IH]; intro score; simpl.
  - lia.
  - rewrite IH. destruct sq as [pc|]; simpl; [|reflexivity].
    unfold Reference.signedValue. rewrite VAL_pieceValue.
    destruct (sq_color pc); lia.
Qed.

Lemma sumZ_app (l1 l2 : list Z) :
  Reference.sumZ (l1 ++ l2) = Reference.sumZ l1 + Reference.sumZ l2.
Proof.
  unfold Reference.sumZ. induction l1 as [|x l1 IH]; simpl; [reflexivity|].
  rewrite IH. lia.
Qed.

Lemma material_fold (rows : list (list (option Piece))) (score : Z) :
  fold_left Main.materialRow rows score =
  score + Reference.sumZ (map Reference.signedValue (Reference.occupied rows)).
Proof.
  unfold Reference.occupied.
  revert score. induction rows as [|row rows IH]; intro score; simpl.
  - lia.
  - rewrite IH, materialRow_sum, flat_map_app, map_app, sumZ_app. lia.
Qed.

(* the score of evaluate before its terminal tests *)
Lemma evaluate_cases (game : Chess) :
  Main.evaluate game =
  if isCheckmate game
  then match turn game with White => -1000000000 | Black => 1000000000 end
  else if isDraw game || isStalemate game || isInsufficientMaterial game
          || isThreefoldRepetition game
  then 0
  else Reference.material game + Reference.mobility game
       + Reference.checkTerm game.
Proof.
  unfold Main.evaluate, Reference.material, Reference.mobility,
    Reference.checkTerm.
  rewrite material_fold, length_map.
  destruct (isCheckmate game); [reflexivity|].
  destruct (isDraw game || isStalemate game || isInsufficientMaterial game
            || isThreefoldRepetition game); [reflexivity|].
  destruct (inCheck game), (turn game); lia.
Qed.

Lemma Worker_evaluate_eq (game : Chess) :
  Worker.evaluate game = Main.evaluate game.
Proof. reflexivity. Qed.

(** C7. In a position that is neither checkmate nor drawn in any of the
    ways the evaluator tests (isDraw, isStalemate, isInsufficientMaterial,
    isThreefoldRepetition), evaluate returns the material sum over the
    occupied squares (pawn 100, knight 320, bishop 330, rook 500, queen 900,
    king 0; White adds, Black subtracts), plus min(number of legal moves, 30)
    counted for the side to move, plus -15 when White is to move and in
    check or +15 when Black is to move and in check. *)
Theorem evaluate_material_mobility_check (game : Chess) :
  isCheckmate game = false ->
  isDraw game = false ->
  isStalemate game = false ->
  isInsufficientMaterial game = false ->
  isThreefoldRepetition game = false ->
  Main.evaluate game =
  Reference.material game + Reference.mobility game + Reference.checkTerm game.
Proof.
  intros Hmate Hdraw Hstale Hins Hrep.
  rewrite evaluate_cases, Hmate, Hdraw, Hstale, Hins, Hrep. reflexivity.
Qed.

(** C2, amended. On a position on which isCheckmate, isDraw or isStalemate
    holds, evaluate returns -10^9 (White to move) or +10^9 (Black to move)
    when the position is checkmate, and exactly 0 when it is not checkmate:
    the checkmate test comes first, the draw tests override material,
    mobility and check.  Both implementations agree. *)
Theorem evaluate_terminal (game : Chess) :
  isCheckmate game = true \/ isDraw game = true \/ isStalemate game = true ->
  Main.evaluate game =
    (if isCheckmate game
     then match turn game with
          | White => -1000000000
          | Black => 1000000000
          end
     else 0) /\
  Worker.evaluate game = Main.evaluate game.
Proof.
  intro Hterm. split; [|reflexivity].
  rewrite evaluate_cases.
  destruct (isCheckmate game); [reflexivity|].
  destruct Hterm as [Hm | [-> | ->]]; [discriminate | reflexivity |].
  rewrite orb_true_r. reflexivity.
Qed.

End EvaluatorFacts.

(** ** The greedy strategy *)

Section GreedyFacts.

Lemma greedyScore_onePly (m : VerboseMove) :
  Main.greedyScore m = Reference.onePlyScore m.
Proof.
  unfold Main.greedyScore, Reference.onePlyScore, Reference.captureTerm,
    Reference.notationTerm, Reference.marksMate, Reference.marksCheck.
  destruct (captured m) as [c|];
    rewrite ?VAL_pieceValue;
    destruct (includes "#" (san m)), (includes "+" (san m)); lia.
Qed.

Lemma pieceValue_range (kind : PieceSymbol) :
  0 <= Reference.pieceValue kind <= 900.
Proof. destruct kind; simpl; lia. Qed.

Lemma onePlyScore_lower (m : VerboseMove) : -899 <= Reference.onePlyScore m.
Proof.
  unfold Reference.onePlyScore, Reference.captureTerm, Reference.notationTerm.
  destruct (captured m) as [c|].
  - pose proof (pieceValue_range c). pose proof (pieceValue_range (piece m)).
    destruct (Reference.marksMate m), (Reference.marksCheck m); lia.
  - destruct (Reference.marksMate m), (Reference.marksCheck m); lia.
Qed.

Lemma greedyLoop_keeps (ms before mid : list VerboseMove) (m : VerboseMove) :
  (forall x, In x before ->
             Reference.onePlyScore x < Reference.onePlyScore m) ->
  (forall x, In x mid ->
             Reference.onePlyScore x <= Reference.onePlyScore m) ->
  exists m',
    Main.greedyLoop ms (Some m) (Main.greedyScore m) =
      (Some m', Main.greedyScore m') /\
    firstMax (before ++ m :: mid ++ ms) m'.
Proof.
  revert before mid m.
  induction ms as [|x ms IH]; intros before mid m Hlt Hle; simpl.
  - exists m. split; [reflexivity|].
    exists before, mid. rewrite app_nil_r. auto.
  - destruct (Z.gtb_spec (Main.greedyScore x) (Main.greedyScore m)) as [Hgt|Hng].
    + rewrite !greedyScore_onePly in Hgt.
      destruct (IH (before ++ m :: mid) [] x) as (m' & Hrun & Hfm).
      * intros y Hy. apply in_app_or in Hy as [Hy | [<- | Hy]].
        -- specialize (Hlt y Hy). lia.
        -- lia.
        -- specialize (Hle y Hy). lia.
      * intros y [].
      * exists m'. split; [exact Hrun|].
        replace (before ++ m :: mid ++ x :: ms)
          with ((before ++ m :: mid) ++ x :: [] ++ ms); [exact Hfm|].
        rewrite <- app_assoc. reflexivity.
    + rewrite !greedyScore_onePly in Hng.
      destruct (IH before (mid ++ [x]) m Hlt) as (m' & Hrun & Hfm).
      * intros y Hy. apply in_app_or in Hy as [Hy | [<- | []]].
        -- apply Hle, Hy.
        -- lia.
      * exists m'. split; [exact Hrun|].
        replace (before ++ m :: mid ++ x :: ms)
          with (before ++ m :: (mid ++ [x]) ++ ms); [exact Hfm|].
        rewrite <- app_assoc. reflexivity.
Qed.

Lemma greedyLoop_firstMax (m0 : VerboseMove) (rest : list VerboseMove) :
  exists m,
    Main.greedyLoop (m0 :: rest) None (-1000000000000000) =
      (Some m, Main.greedyScore m) /\
    firstMax (m0 :: rest) m.
Proof.
  simpl.
  pose proof (onePlyScore_lower m0) as Hlow.
  rewrite <- greedyScore_onePly in Hlow.
  destruct (Z.gtb_spec (Main.greedyScore m0) (-1000000000000000)); [|lia].
  destruct (greedyLoop_keeps rest [] [] m0) as (m & Hrun & Hfm).
  - intros x [].
  - intros x [].
  - exists m. split; [exact Hrun | exact Hfm].
Qed.

Lemma Worker_greedyLoop_eq (ms : list VerboseMove) (best : option VerboseMove)
  (bestScore : Z) :
  Worker.greedyLoop ms best bestScore = Main.greedyLoop ms best bestScore.
Proof. reflexivity. Qed.

Context {Chess : Type} `{RulesEngine Chess}.

Lemma greedyPick_firstMax (r : Q) (game : Chess) :
  moves game <> [] ->
  exists m,
    firstMax (moves game) m /\
    Main.greedyPick r game = (Some (Main.toShort m), game).
Proof.
  intro Hne. unfold Main.greedyPick, bind, gets.
  destruct (moves game) as [|m0 rest] eqn:Hms; [congruence|].
  destruct (greedyLoop_firstMax m0 rest) as (m & Hrun & Hfm).
  exists m. split; [exact Hfm|].
  rewrite Hrun. reflexivity.
Qed.

Lemma Worker_greedyPicker_eq (r : Q) (game : Chess) :
  Worker.greedyPicker r game = Main.greedyPick r game.
Proof. reflexivity. Qed.

(** C9. Greedy scores a legal move as 0, plus captured value - moving
    value + 1 when the move captures, plus 10^9 when its notation marks
    checkmate or else plus 5 when it marks check; with at least one legal
    move it returns the first move, in enumeration order, that reaches the
    maximum score: every earlier move scores strictly less (the comparison
    is a strict >), every later one at most as much.  This holds for
    greedyPick and for the worker's greedyPicker. *)
Theorem greedy_first_maximum (r : Q) (game : Chess) :
  moves game <> [] ->
  (forall m, Main.greedyScore m = Reference.onePlyScore m /\
             Worker.greedyScore m = Reference.onePlyScore m) /\
  exists m,
    firstMax (moves game) m /\
    fst (Main.greedyPick r game) = Some (Main.toShort m) /\
    fst (Worker.greedyPicker r game) = Some (Worker.toShort m).
Proof.
  intro Hne. split.
  - intro m. split; apply greedyScore_onePly.
  - destruct (greedyPick_firstMax r game Hne) as (m & Hfm & Hrun).
    exists m. split; [exact Hfm|].
    change (Worker.greedyPicker r game) with (Main.greedyPick r game).
    rewrite Hrun. split; reflexivity.
Qed.

(** C8, amended. When exactly one legal move is a capture, it captures a
    piece of value at least 300 with a piece worth no more than the captured
    one, and no legal move's notation marks check or checkmate, greedy
    returns that capturing move. *)
Theorem greedy_single_capture (r : Q) (game : Chess) (m : VerboseMove)
  (c : PieceSymbol) :
  In m (moves game) ->
  captured m = Some c ->
  300 <= Reference.pieceValue c ->
  Reference.pieceValue (piece m) <= Reference.pieceValue c ->
  (forall x, In x (moves game) -> captured x <> None -> x = m) ->
  (forall x, In x (moves game) ->
             Reference.marksMate x = false /\ Reference.marksCheck x = false) ->
  fst (Main.greedyPick r game) = Some (Main.toShort m) /\
  fst (Worker.greedyPicker r game) = Some (Worker.toShort m).
Proof.
  intros Hin Hcap Hval Hmover Honly Hquiet.
  assert (Hne : moves game <> []) by (intro E; rewrite E in Hin; exact Hin).
  destruct (greedyPick_firstMax r game Hne) as (m' & Hfm & Hrun).
  change (Worker.greedyPicker r game) with (Main.greedyPick r game).
  rewrite Hrun. simpl.
  assert (Hscore : forall x, In x (moves game) ->
            Reference.onePlyScore x = Reference.captureTerm x).
  { intros x Hx. destruct (Hquiet x Hx) as [Hm Hc].
    unfold Reference.onePlyScore, Reference.notationTerm.
    rewrite Hm, Hc. lia. }
  assert (Hm1 : 1 <= Reference.onePlyScore m).
  { rewrite (Hscore m Hin). unfold Reference.captureTerm. rewrite Hcap. lia. }
  assert (Hm' : In m' (moves game)).
  { destruct Hfm as (l1 & l2 & E & _). rewrite E. apply in_elt. }
  assert (Hge : Reference.onePlyScore m <= Reference.onePlyScore m').
  { destruct Hfm as (l1 & l2 & E & Hlt & Hle).
    rewrite E in Hin. apply in_app_or in Hin as [Hi | [<- | Hi]].
    - specialize (Hlt m Hi). lia.
    - lia.
    - apply Hle, Hi. }
  assert (m' = m) as ->.
  { apply Honly; [exact Hm'|].
    rewrite (Hscore m' Hm') in Hge. unfold Reference.captureTerm in Hge.
    destruct (captured m'); [discriminate | lia]. }
  split; reflexivity.
Qed.

End GreedyFacts.

(** ** Arithmetic of the extended integers *)

Section NumFacts.

Lemma Nleb_true (x y : Num) : Nleb x y = true <-> Nle x y.
Proof. destruct x, y; simpl; rewrite ?Z.leb_le; intuition congruence. Qed.

Lemma Nleb_false (x y : Num) : Nleb x y = false <-> Nlt y x.
Proof. destruct x, y; simpl; rewrite ?Z.leb_gt; intuition congruence. Qed.

Lemma Nmax_Fin (x y : Z) : Nmax (Fin x) (Fin y) = Fin (Z.max x y).
Proof. unfold Nmax; simpl. destruct (Z.leb_spec x y); f_equal; lia. Qed.

Lemma Nmin_Fin (x y : Z) : Nmin (Fin x) (Fin y) = Fin (Z.min x y).
Proof. unfold Nmin; simpl. destruct (Z.leb_spec x y); f_equal; lia. Qed.

End NumFacts.

Ltac num_cases :=
  unfold within in *; intros;
  repeat match goal with x : Num |- _ => destruct x end;
  rewrite ?Nmax_Fin, ?Nmin_Fin in *; cbn in *;
  rewrite ?Nmax_Fin, ?Nmin_Fin in *; cbn in *;
  try lia; try reflexivity; try (f_equal; lia); try contradiction.

Section WindowFacts.

Lemma Nle_trans (x y z : Num) : Nle x y -> Nle y z -> Nle x z.
Proof. num_cases. Qed.

Lemma Nle_antisym (x y : Num) : Nle x y -> Nle y x -> x = y.
Proof. num_cases. Qed.

Lemma Nmax_ge_l (x y : Num) : Nle x (Nmax x y).
Proof. num_cases. Qed.

Lemma Nmin_le_l (x y : Num) : Nle (Nmin x y) x.
Proof. num_cases. Qed.

Lemma Nmax_NegInf (a : Num) : Nmax a NegInf = a.
Proof. num_cases. Qed.

Lemma Nmin_PosInf (b : Num) : Nmin b PosInf = b.
Proof. num_cases. Qed.

Lemma Nmax_window (a val r : Num) :
  Nmax (Nmax a val) (Nmax val r) = Nmax a (Nmax val r).
Proof. num_cases. Qed.

Lemma Nmin_window (b val r : Num) :
  Nmin (Nmin b val) (Nmin val r) = Nmin b (Nmin val r).
Proof. num_cases. Qed.

Lemma within_exact (a b v : Num) : within a b v v.
Proof. num_cases. Qed.

Lemma within_full (v r : Num) : within NegInf PosInf v r -> r = v.
Proof. num_cases. Qed.

(* the White loop stops: the value found is a lower bound at or above b *)
Lemma white_break (a b val V r v : Num) :
  Nlt (Nmax a val) b -> Nle V val -> (Nlt a val -> Nle val V) ->
  within (Nmax a val) b v r ->
  Nle b (Nmax (Nmax a val) (Nmax val r)) ->
  Nle b (Nmax val r) /\ Nle (Nmax val r) (Nmax V v).
Proof. num_cases. Qed.

(* the White loop goes on: the invariant holds for the next round *)
Lemma white_continue (a b val V r v : Num) :
  Nlt (Nmax a val) b -> Nle V val -> (Nlt a val -> Nle val V) ->
  within (Nmax a val) b v r ->
  Nlt (Nmax (Nmax a val) (Nmax val r)) b ->
  Nlt (Nmax a (Nmax val r)) b /\
  Nle (Nmax V v) (Nmax val r) /\
  (Nlt a (Nmax val r) -> Nle (Nmax val r) (Nmax V v)).
Proof. num_cases. Qed.

Lemma white_done (a b val V : Num) :
  Nlt (Nmax a val) b -> Nle V val -> (Nlt a val -> Nle val V) ->
  within a b V val.
Proof. num_cases. Qed.

Lemma white_cut (a b r v : Num) :
  Nlt a b -> Nle b r -> Nle r v -> within a b v r.
Proof. num_cases. Qed.

Lemma black_break (a b val V r v : Num) :
  Nlt a (Nmin b val) -> Nle val V -> (Nlt val b -> Nle V val) ->
  within a (Nmin b val) v r ->
  Nle (Nmin (Nmin b val) (Nmin val r)) a ->
  Nle (Nmin val r) a /\ Nle (Nmin V v) (Nmin val r).
Proof. num_cases. Qed.

Lemma black_continue (a b val V r v : Num) :
  Nlt a (Nmin b val) -> Nle val V -> (Nlt val b -> Nle V val) ->
  within a (Nmin b val) v r ->
  Nlt a (Nmin (Nmin b val) (Nmin val r)) ->
  Nlt a (Nmin b (Nmin val r)) /\
  Nle (Nmin val r) (Nmin V v) /\
  (Nlt (Nmin val r) b -> Nle (Nmin V v) (Nmin val r)).
Proof. num_cases. Qed.

Lemma black_done (a b val V : Num) :
  Nlt a (Nmin b val) -> Nle val V -> (Nlt val b -> Nle V val) ->
  within a b V val.
Proof. num_cases. Qed.

Lemma black_cut (a b r v : Num) :
  Nlt a b -> Nle r a -> Nle v r -> within a b v r.
Proof. num_cases. Qed.

Lemma fold_max_ge {A : Type} (F : A -> Num) (l : list A) (V W : Num) :
  Nle W V -> Nle W (fold_left (fun val m => Nmax val (F m)) l V).
Proof.
  revert V. induction l as [|x l IH]; intros V HW; simpl; [exact HW|].
  apply IH. eapply Nle_trans; [exact HW | apply Nmax_ge_l].
Qed.

Lemma fold_min_le {A : Type} (F : A -> Num) (l : list A) (V W : Num) :
  Nle V W -> Nle (fold_left (fun val m => Nmin val (F m)) l V) W.
Proof.
  revert V. induction l as [|x l IH]; intros V HW; simpl; [exact HW|].
  apply IH. eapply Nle_trans; [apply Nmin_le_l | exact HW].
Qed.

End WindowFacts.

(** ** Search: the position is restored *)

Section SearchRestores.
Context {Chess : Type} `{RulesEngine Chess}.
Hypothesis lawful : LawfulEngine.

Lemma toShort_fields (m : VerboseMove) :
  Main.toShort m =
  {| o_from := from m; o_to := to m; o_promotion := promotion m |}.
Proof. unfold Main.toShort. destruct (promotion m); reflexivity. Qed.

Lemma undo_child (game : Chess) (m : VerboseMove) :
  In m (moves game) -> undo (Reference.child game m) = game.
Proof.
  intro Hin. unfold Reference.child, after_move. rewrite toShort_fields.
  destruct (lawful game m Hin) as (game' & -> & Hundo). exact Hundo.
Qed.

Lemma searchWhite_cons (rec : Num -> Num -> M Num) (beta : Num)
  (m : VerboseMove) (rest : list VerboseMove) (val alpha : Num)
  (game : Chess) :
  Main.searchWhite rec beta (m :: rest) val alpha game =
  let res := rec alpha beta (Reference.child game m) in
  let val' := Nmax val (fst res) in
  let alpha' := Nmax alpha val' in
  if Ngeb alpha' beta then (val', undo (snd res))
  else Main.searchWhite rec beta rest val' alpha' (undo (snd res)).
Proof.
  simpl. unfold bind, game_move, game_undo, modify, ret, Reference.child.
  destruct (rec alpha beta (after_move game (Main.toShort m))) as [c g2].
  simpl. destruct (Ngeb _ _); reflexivity.
Qed.

Lemma searchBlack_cons (rec : Num -> Num -> M Num) (alpha : Num)
  (m : VerboseMove) (rest : list VerboseMove) (val beta : Num)
  (game : Chess) :
  Main.searchBlack rec alpha (m :: rest) val beta game =
  let res := rec alpha beta (Reference.child game m) in
  let val' := Nmin val (fst res) in
  let beta' := Nmin beta val' in
  if Ngeb alpha beta' then (val', undo (snd res))
  else Main.searchBlack rec alpha rest val' beta' (undo (snd res)).
Proof.
  simpl. unfold bind, game_move, game_undo, modify, ret, Reference.child.
  destruct (rec alpha beta (after_move game (Main.toShort m))) as [c g2].
  simpl. destruct (Ngeb _ _); reflexivity.
Qed.

Lemma search_succ (depth : nat) (alpha beta : Num) (game : Chess) :
  Main.search (S depth) alpha beta game =
  if isGameOver game then (Fin (Main.evaluate game), game)
  else match moves game with
       | [] => (Fin (Main.evaluate game), game)
       | mv =>
           match turn game with
           | White =>
               Main.searchWhite (Main.search depth) beta mv NegInf alpha game
           | Black =>
               Main.searchBlack (Main.search depth) alpha mv PosInf beta game
           end
       end.
Proof.
  cbn [Main.search]. unfold bind, gets, Main.evaluateM.
  destruct (isGameOver game); [reflexivity|].
  destruct (moves game); [reflexivity|].
  destruct (turn game); reflexivity.
Qed.

Lemma rootLoop_cons (depth : nat) (aiWhite : bool) (m : VerboseMove)
  (rest : list VerboseMove) (best : option VerboseMove) (bestScore : Num)
  (game : Chess) :
  Main.rootLoop depth aiWhite (m :: rest) best bestScore game =
  let res := Main.search depth NegInf PosInf (Reference.child game m) in
  if Main.improves aiWhite (fst res) bestScore
  then Main.rootLoop depth aiWhite rest (Some m) (fst res) (undo (snd res))
  else Main.rootLoop depth aiWhite rest best bestScore (undo (snd res)).
Proof.
  simpl. unfold bind, game_move, game_undo, modify, Reference.child.
  destruct (Main.search depth NegInf PosInf
              (after_move game (Main.toShort m))) as [v g2].
  simpl. destruct (Main.improves _ _ _); reflexivity.
Qed.

Lemma searchWhite_restores (rec : Num -> Num -> M Num) (beta : Num)
  (game : Chess) :
  (forall a c, restores (rec a c)) ->
  forall (mv : list VerboseMove) (val alpha : Num),
    incl mv (moves game) ->
    snd (Main.searchWhite rec beta mv val alpha game) = game.
Proof.
  intros Hrec mv. induction mv as [|m rest IH]; intros val alpha Hincl.
  - reflexivity.
  - rewrite searchWhite_cons. cbv zeta. rewrite !Hrec.
    rewrite !undo_child by (apply Hincl; left; reflexivity).
    destruct (Ngeb _ beta); [reflexivity|].
    apply IH. intros x Hx. apply Hincl. right. exact Hx.
Qed.

Lemma searchBlack_restores (rec : Num -> Num -> M Num) (alpha : Num)
  (game : Chess) :
  (forall a c, restores (rec a c)) ->
  forall (mv : list VerboseMove) (val beta : Num),
    incl mv (moves game) ->
    snd (Main.searchBlack rec alpha mv val beta game) = game.
Proof.
  intros Hrec mv. induction mv as [|m rest IH]; intros val beta Hincl.
  - reflexivity.
  - rewrite searchBlack_cons. cbv zeta. rewrite !Hrec.
    rewrite !undo_child by (apply Hincl; left; reflexivity).
    destruct (Ngeb alpha _); [reflexivity|].
    apply IH. intros x Hx. apply Hincl. right. exact Hx.
Qed.

Lemma search_restores (depth : nat) (alpha beta : Num) :
  restores (Main.search depth alpha beta).
Proof.
  revert alpha beta. induction depth as [|depth IH]; intros alpha beta game.
  - reflexivity.
  - rewrite search_succ.
    destruct (isGameOver game); [reflexivity|].
    destruct (moves game) as [|m0 rest] eqn:Hmv; [reflexivity|].
    destruct (turn game).
    + apply searchWhite_restores; [exact IH|].
      rewrite Hmv. apply incl_refl.
    + apply searchBlack_restores; [exact IH|].
      rewrite Hmv. apply incl_refl.
Qed.

Lemma rootLoop_restores (depth : nat) (aiWhite : bool) (game : Chess)
  (root : list VerboseMove) :
  forall (best : option VerboseMove) (bestScore : Num),
    incl root (moves game) ->
    snd (Main.rootLoop depth aiWhite root best bestScore game) = game.
Proof.
  induction root as [|m rest IH]; intros best bestScore Hincl.
  - reflexivity.
  - rewrite rootLoop_cons. cbv zeta. rewrite !search_restores.
    rewrite !undo_child by (apply Hincl; left; reflexivity).
    destruct (Main.improves _ _ _); apply IH;
      intros x Hx; apply Hincl; right; exact Hx.
Qed.

Lemma minimaxPickMain_restores (depthLimit : nat) (aiColor : Color) :
  restores (Main.minimaxPickMain depthLimit aiColor).
Proof.
  intro game. unfold Main.minimaxPickMain, bind, gets.
  destruct (moves game) as [|m0 rest] eqn:Hmv; [reflexivity|].
  pose proof (rootLoop_restores (depthLimit - 1) (Color_eqb aiColor White)
                game (m0 :: rest) None
                (if Color_eqb aiColor White then NegInf else PosInf)) as Hr.
  unfold Main.rootSearch.
  destruct (Main.rootLoop _ _ _ _ _ game) as [res g'].
  simpl in Hr. rewrite <- Hr by (rewrite Hmv; apply incl_refl).
  destruct (fst res); reflexivity.
Qed.

Lemma randomPick_reads (r : Q) (game : Chess) :
  snd (Main.randomPick r game) = game.
Proof.
  unfold Main.randomPick, bind, gets. destruct (moves game); reflexivity.
Qed.

Lemma greedyPick_reads (r : Q) (game : Chess) :
  snd (Main.greedyPick r game) = game.
Proof.
  unfold Main.greedyPick, bind, gets.
  destruct (moves game) as [|m0 rest]; [reflexivity|].
  destruct (Main.greedyLoop _ _ _) as [[m|] s]; reflexivity.
Qed.

Lemma Worker_minimaxPick_eq (depthLimit : nat) (aiColor : Color)
  (game : Chess) :
  Worker.minimaxPick depthLimit aiColor game =
  Main.minimaxPickMain depthLimit aiColor game.
Proof. reflexivity. Qed.

Lemma Worker_randomPicker_eq (r : Q) (game : Chess) :
  Worker.randomPicker r game = Main.randomPick r game.
Proof. reflexivity. Qed.

(** C3. Under the engine's contract (a legal move is accepted and undo is
    its exact inverse), the FEN of the position after a strategy returns is
    the FEN it had when the strategy was called: for random, greedy and
    minimax, in the foreground and in the worker. *)
Theorem strategies_restore_fen (game : Chess) (r : Q) (depthLimit : nat)
  (aiColor : Color) :
  fen (snd (Main.randomPick r game)) = fen game /\
  fen (snd (Main.greedyPick r game)) = fen game /\
  fen (snd (Main.minimaxPickMain depthLimit aiColor game)) = fen game /\
  fen (snd (Worker.randomPicker r game)) = fen game /\
  fen (snd (Worker.greedyPicker r game)) = fen game /\
  fen (snd (Worker.minimaxPick depthLimit aiColor game)) = fen game.
Proof.
  change (Worker.randomPicker r game) with (Main.randomPick r game).
  change (Worker.greedyPicker r game) with (Main.greedyPick r game).
  change (Worker.minimaxPick depthLimit aiColor game)
    with (Main.minimaxPickMain depthLimit aiColor game).
  rewrite randomPick_reads, greedyPick_reads, minimaxPickMain_restores.
  repeat split.
Qed.

End SearchRestores.

(** ** Search: alpha-beta against the unpruned value *)

Section AlphaBeta.
Context {Chess : Type} `{RulesEngine Chess}.
Hypothesis lawful : LawfulEngine.

Lemma searchWhite_within (rec : Num -> Num -> M Num) (F : VerboseMove -> Num)
  (game : Chess) (a b : Num) :
  sound_below rec F game -> Nlt a b ->
  forall (mv : list VerboseMove) (val V : Num),
    incl mv (moves game) ->
    Nlt (Nmax a val) b -> Nle V val -> (Nlt a val -> Nle val V) ->
    within a b
      (fold_left (fun v m => Nmax v (F m)) mv V)
      (fst (Main.searchWhite rec b mv val (Nmax a val) game)).
Proof.
  intros Hrec Hab mv.
  induction mv as [|m rest IH]; intros val V Hincl Hwin Hle Hge.
  - simpl. apply white_done; assumption.
  - rewrite searchWhite_cons. cbv zeta.
    assert (Hm : In m (moves game)) by (apply Hincl; left; reflexivity).
    destruct (Hrec m (Nmax a val) b Hm Hwin) as [Hsnd Hr].
    rewrite !Hsnd, !(undo_child lawful game m Hm).
    set (r := fst (rec (Nmax a val) b (Reference.child game m))) in *.
    simpl fold_left.
    unfold Ngeb.
    destruct (Nleb b (Nmax (Nmax a val) (Nmax val r))) eqn:Hcut.
    + apply Nleb_true in Hcut.
      destruct (white_break a b val V r (F m) Hwin Hle Hge Hr Hcut)
        as [Hb Hv].
      apply white_cut; [exact Hab | exact Hb |].
      apply fold_max_ge. exact Hv.
    + apply Nleb_false in Hcut.
      destruct (white_continue a b val V r (F m) Hwin Hle Hge Hr Hcut)
        as (Hwin' & Hle' & Hge').
      rewrite Nmax_window.
      apply IH; try assumption.
      intros x Hx. apply Hincl. right. exact Hx.
Qed.

Lemma searchBlack_within (rec : Num -> Num -> M Num) (F : VerboseMove -> Num)
  (game : Chess) (a b : Num) :
  sound_below rec F game -> Nlt a b ->
  forall (mv : list VerboseMove) (val V : Num),
    incl mv (moves game) ->
    Nlt a (Nmin b val) -> Nle val V -> (Nlt val b -> Nle V val) ->
    within a b
      (fold_left (fun v m => Nmin v (F m)) mv V)
      (fst (Main.searchBlack rec a mv val (Nmin b val) game)).
Proof.
  intros Hrec Hab mv.
  induction mv as [|m rest IH]; intros val V Hincl Hwin Hle Hge.
  - simpl. apply black_done; assumption.
  - rewrite searchBlack_cons. cbv zeta.
    assert (Hm : In m (moves game)) by (apply Hincl; left; reflexivity).
    destruct (Hrec m a (Nmin b val) Hm Hwin) as [Hsnd Hr].
    rewrite !Hsnd, !(undo_child lawful game m Hm).
    set (r := fst (rec a (Nmin b val) (Reference.child game m))) in *.
    simpl fold_left.
    unfold Ngeb.
    destruct (Nleb (Nmin (Nmin b val) (Nmin val r)) a) eqn:Hcut.
    + apply Nleb_true in Hcut.
      destruct (black_break a b val V r (F m) Hwin Hle Hge Hr Hcut)
        as [Hb Hv].
      apply black_cut; [exact Hab | exact Hb |].
      apply fold_min_le. exact Hv.
    + apply Nleb_false in Hcut.
      destruct (black_continue a b val V r (F m) Hwin Hle Hge Hr Hcut)
        as (Hwin' & Hle' & Hge').
      rewrite Nmin_window.
      apply IH; try assumption.
      intros x Hx. apply Hincl. right. exact Hx.
Qed.

Lemma minimaxValue_succ (depth : nat) (game : Chess) :
  Reference.minimaxValue (S depth) game =
  if isGameOver game then Fin (Main.evaluate game)
  else match moves game with
       | [] => Fin (Main.evaluate game)
       | mv =>
           match turn game with
           | White =>
               fold_left
                 (fun val m =>
                    Nmax val
                      (Reference.minimaxValue depth (Reference.child game m)))
                 mv NegInf
           | Black =>
               fold_left
                 (fun val m =>
                    Nmin val
                      (Reference.minimaxValue depth (Reference.child game m)))
                 mv PosInf
           end
       end.
Proof. reflexivity. Qed.

Lemma search_within (depth : nat) :
  forall (game : Chess) (a b : Num),
    Nlt a b ->
    within a b (Reference.minimaxValue depth game)
      (fst (Main.search depth a b game)).
Proof.
  induction depth as [|depth IH]; intros game a b Hab.
  - apply within_exact.
  - rewrite search_succ, minimaxValue_succ.
    destruct (isGameOver game); [apply within_exact|].
    destruct (moves game) as [|m0 rest] eqn:Hmv; [apply within_exact|].
    assert (Hrec : sound_below (Main.search depth)
                     (fun m => Reference.minimaxValue depth
                                 (Reference.child game m)) game).
    { intros m a' c' _ Hac. split; [apply (search_restores lawful)|].
      apply IH. exact Hac. }
    rewrite <- Hmv.
    destruct (turn game).
    + pose proof (searchWhite_within _ _ game a b Hrec Hab (moves game)
                    NegInf NegInf (incl_refl _)) as P.
      rewrite Nmax_NegInf in P. apply P.
      * exact Hab.
      * exact I.
      * destruct a; simpl; intros [].
    + pose proof (searchBlack_within _ _ game a b Hrec Hab (moves game)
                    PosInf PosInf (incl_refl _)) as P.
      rewrite Nmin_PosInf in P. apply P.
      * exact Hab.
      * exact I.
      * destruct b; simpl; intros [].
Qed.

Lemma search_full_window (depth : nat) (game : Chess) :
  Main.search depth NegInf PosInf game =
  (Reference.minimaxValue depth game, game).
Proof.
  pose proof (search_restores lawful depth NegInf PosInf game) as Hs.
  pose proof (within_full _ _ (search_within depth game NegInf PosInf I)) as Hv.
  destruct (Main.search depth NegInf PosInf game) as [v g'].
  simpl in *. congruence.
Qed.

Lemma improves_betterFor (aiColor : Color) (v bestScore : Num) :
  Main.improves (Color_eqb aiColor White) v bestScore =
  Reference.betterFor aiColor v bestScore.
Proof. destruct aiColor; reflexivity. Qed.

Lemma rootLoop_full (depth : nat) (aiColor : Color) (game : Chess)
  (root : list VerboseMove) :
  forall (best : option VerboseMove) (bestScore : Num),
    incl root (moves game) ->
    Main.rootLoop depth (Color_eqb aiColor White) root best bestScore game =
    (fold_left
       (fun acc m =>
          let v := Reference.minimaxValue depth (Reference.child game m) in
          if Reference.betterFor aiColor v (snd acc) then (Some m, v) else acc)
       root (best, bestScore),
     game).
Proof.
  induction root as [|m rest IH]; intros best bestScore Hincl.
  - reflexivity.
  - rewrite rootLoop_cons. cbv zeta. rewrite !search_full_window.
    simpl fst. simpl snd.
    rewrite !undo_child by (try exact lawful; apply Hincl; left; reflexivity).
    rewrite improves_betterFor.
    assert (Hrest : incl rest (moves game))
      by (intros x Hx; apply Hincl; right; exact Hx).
    cbn [fold_left snd].
    destruct (Reference.betterFor aiColor _ bestScore); apply IH; exact Hrest.
Qed.

Lemma rootSearch_full (depthLimit : nat) (aiColor : Color) (game : Chess) :
  Main.rootSearch depthLimit aiColor (moves game) game =
  (Reference.fullMinimaxPick depthLimit aiColor game, game).
Proof.
  unfold Main.rootSearch, Reference.fullMinimaxPick.
  rewrite rootLoop_full by apply incl_refl.
  destruct aiColor; reflexivity.
Qed.

Lemma minimaxPickMain_full (depthLimit : nat) (aiColor : Color)
  (game : Chess) :
  fst (Main.minimaxPickMain depthLimit aiColor game) =
  option_map Main.toShort
    (fst (Reference.fullMinimaxPick depthLimit aiColor game)).
Proof.
  unfold Main.minimaxPickMain, bind, gets.
  destruct (moves game) as [|m0 rest] eqn:Hmv.
  - unfold Reference.fullMinimaxPick. rewrite Hmv. reflexivity.
  - rewrite <- Hmv, rootSearch_full. simpl.
    destruct (fst (Reference.fullMinimaxPick depthLimit aiColor game));
      reflexivity.
Qed.

(** C1. Under the engine's contract, for every position, every
    depthLimit >= 1 and every aiColor, the best move and the best score that
    the alpha-beta search computes at the root (in minimaxPickMain and in
    the worker's minimaxPick) are the move and the score of the unpruned
    minimax search of the same depth over the same game tree, with the same
    evaluator and the same move order; so is the move returned. *)
Theorem alphabeta_equals_full_minimax (game : Chess) (depthLimit : nat)
  (aiColor : Color) :
  (1 <= depthLimit)%nat ->
  fst (Main.rootSearch depthLimit aiColor (moves game) game) =
    Reference.fullMinimaxPick depthLimit aiColor game /\
  fst (Worker.rootSearch depthLimit aiColor (moves game) game) =
    Reference.fullMinimaxPick depthLimit aiColor game /\
  fst (Main.minimaxPickMain depthLimit aiColor game) =
    option_map Main.toShort
      (fst (Reference.fullMinimaxPick depthLimit aiColor game)) /\
  fst (Worker.minimaxPick depthLimit aiColor game) =
    option_map Main.toShort
      (fst (Reference.fullMinimaxPick depthLimit aiColor game)).
Proof.
  intros _.
  change (Worker.rootSearch depthLimit aiColor (moves game) game)
    with (Main.rootSearch depthLimit aiColor (moves game) game).
  change (Worker.minimaxPick depthLimit aiColor game)
    with (Main.minimaxPickMain depthLimit aiColor game).
  rewrite rootSearch_full, minimaxPickMain_full. repeat split.
Qed.

End AlphaBeta.

(** ** Every strategy answers with a legal move or with null *)

Section Legality.
Context {Chess : Type} `{RulesEngine Chess}.

Lemma randomIndex_range (r : Q) (len : nat) :
  (0 <= r)%Q -> (r < 1)%Q -> (0 < len)%nat ->
  0 <= randomIndex r len < Z.of_nat len.
Proof.
  intros H0 H1 Hlen. unfold randomIndex.
  set (n := Z.of_nat len).
  assert (Hn : (0 < inject_Z n)%Q).
  { change 0%Q with (inject_Z 0). rewrite <- Zlt_Qlt. subst n. lia. }
  split.
  - change 0 with (Qfloor 0). apply Qfloor_resp_le.
    apply Qmult_le_0_compat; [exact H0 | apply Qlt_le_weak; exact Hn].
  - rewrite Zlt_Qlt.
    apply Qle_lt_trans with (y := (r * inject_Z n)%Q); [apply Qfloor_le|].
    rewrite <- (Qmult_1_l (inject_Z n)) at 2.
    apply Qmult_lt_compat_r; assumption.
Qed.

Lemma toShort_at_legal (ms : list VerboseMove) (r : Q) :
  (0 <= r)%Q -> (r < 1)%Q -> ms <> [] ->
  exists m, In m ms /\
    Main.toShort_at ms (randomIndex r (List.length ms)) =
      Some (Main.toShort m).
Proof.
  intros H0 H1 Hne.
  assert (Hlen : (0 < List.length ms)%nat).
  { destruct ms; [congruence | simpl; lia]. }
  destruct (randomIndex_range r (List.length ms) H0 H1 Hlen) as [Hlo Hhi].
  unfold Main.toShort_at, at_index.
  destruct (Z.ltb_spec (randomIndex r (List.length ms)) 0); [lia|].
  destruct (nth_error ms (Z.to_nat (randomIndex r (List.length ms))))
    as [m|] eqn:Hnth.
  - exists m. split; [eapply nth_error_In; exact Hnth | reflexivity].
  - apply nth_error_None in Hnth. lia.
Qed.

Lemma randomPick_legal (r : Q) (game : Chess) :
  (0 <= r)%Q -> (r < 1)%Q -> moves game <> [] ->
  exists m, In m (moves game) /\
    fst (Main.randomPick r game) = Some (Main.toShort m).
Proof.
  intros H0 H1 Hne. unfold Main.randomPick, bind, gets.
  destruct (toShort_at_legal (moves game) r H0 H1 Hne) as (m & Hin & Hpick).
  exists m. split; [exact Hin|].
  destruct (moves game) as [|m0 rest] eqn:Hmv; [congruence|].
  exact Hpick.
Qed.

Lemma greedyPick_legal (r : Q) (game : Chess) :
  moves game <> [] ->
  exists m, In m (moves game) /\
    fst (Main.greedyPick r game) = Some (Main.toShort m).
Proof.
  intro Hne.
  destruct (greedyPick_firstMax r game Hne) as (m & Hfm & Hrun).
  exists m. split; [|rewrite Hrun; reflexivity].
  destruct Hfm as (l1 & l2 & -> & _). apply in_elt.
Qed.

Lemma searchWhite_finite (rec : Num -> Num -> M Num) (beta : Num) :
  (forall a c game, finite (fst (rec a c game))) ->
  forall (mv : list VerboseMove) (val alpha : Num) (game : Chess),
    finite val \/ (val = NegInf /\ mv <> []) ->
    finite (fst (Main.searchWhite rec beta mv val alpha game)).
Proof.
  intros Hrec mv.
  induction mv as [|m rest IH]; intros val alpha game Hval.
  - destruct Hval as [Hf | [_ Hne]]; [exact Hf | congruence].
  - rewrite searchWhite_cons. cbv zeta.
    destruct (Hrec alpha beta (Reference.child game m)) as [c Hc].
    rewrite !Hc.
    assert (Hv : finite (Nmax val (Fin c))).
    { destruct Hval as [[z ->] | [-> _]].
      - rewrite Nmax_Fin. eexists; reflexivity.
      - exists c. reflexivity. }
    destruct (Ngeb _ beta); [exact Hv|].
    apply IH. left. exact Hv.
Qed.

Lemma searchBlack_finite (rec : Num -> Num -> M Num) (alpha : Num) :
  (forall a c game, finite (fst (rec a c game))) ->
  forall (mv : list VerboseMove) (val beta : Num) (game : Chess),
    finite val \/ (val = PosInf /\ mv <> []) ->
    finite (fst (Main.searchBlack rec alpha mv val beta game)).
Proof.
  intros Hrec mv.
  induction mv as [|m rest IH]; intros val beta game Hval.
  - destruct Hval as [Hf | [_ Hne]]; [exact Hf | congruence].
  - rewrite searchBlack_cons. cbv zeta.
    destruct (Hrec alpha beta (Reference.child game m)) as [c Hc].
    rewrite !Hc.
    assert (Hv : finite (Nmin val (Fin c))).
    { destruct Hval as [[z ->] | [-> _]].
      - rewrite Nmin_Fin. eexists; reflexivity.
      - exists c. reflexivity. }
    destruct (Ngeb alpha _); [exact Hv|].
    apply IH. left. exact Hv.
Qed.

Lemma search_finite (depth : nat) :
  forall (alpha beta : Num) (game : Chess),
    finite (fst (Main.search depth alpha beta game)).
Proof.
  induction depth as [|depth IH]; intros alpha beta game.
  - eexists; reflexivity.
  - rewrite search_succ.
    destruct (isGameOver game); [eexists; reflexivity|].
    destruct (moves game) as [|m0 rest]; [eexists; reflexivity|].
    destruct (turn game).
    + apply searchWhite_finite; [exact IH|]. right. split; congruence.
    + apply searchBlack_finite; [exact IH|]. right. split; congruence.
Qed.

Lemma rootLoop_keeps_legal (depth : nat) (aiWhite : bool)
  (all : list VerboseMove) (root : list VerboseMove) :
  forall (best : VerboseMove) (bestScore : Num) (game : Chess),
    incl root all -> In best all ->
    exists m, In m all /\
      fst (fst (Main.rootLoop depth aiWhite root (Some best) bestScore game))
        = Some m.
Proof.
  induction root as [|m rest IH]; intros best bestScore game Hincl Hbest.
  - exists best. split; [exact Hbest | reflexivity].
  - rewrite rootLoop_cons. cbv zeta.
    assert (Hrest : incl rest all)
      by (intros x Hx; apply Hincl; right; exact Hx).
    destruct (Main.improves _ _ _).
    + apply IH; [exact Hrest | apply Hincl; left; reflexivity].
    + apply IH; assumption.
Qed.

Lemma rootSearch_legal (depthLimit : nat) (aiColor : Color) (game : Chess) :
  moves game <> [] ->
  exists m, In m (moves game) /\
    fst (fst (Main.rootSearch depthLimit aiColor (moves game) game)) = Some m.
Proof.
  intro Hne. unfold Main.rootSearch.
  destruct (moves game) as [|m0 rest] eqn:Hmv; [congruence|].
  rewrite rootLoop_cons. cbv zeta.
  destruct (search_finite (depthLimit - 1) NegInf PosInf
              (Reference.child game m0)) as [z Hz].
  rewrite !Hz.
  assert (Himp : Main.improves (Color_eqb aiColor White) (Fin z)
                   (if Color_eqb aiColor White then NegInf else PosInf)
                 = true) by (destruct aiColor; reflexivity).
  rewrite Himp.
  apply rootLoop_keeps_legal.
  - intros x Hx. right. exact Hx.
  - left. reflexivity.
Qed.

Lemma minimaxPickMain_legal (depthLimit : nat) (aiColor : Color)
  (game : Chess) :
  moves game <> [] ->
  exists m, In m (moves game) /\
    fst (Main.minimaxPickMain depthLimit aiColor game)
      = Some (Main.toShort m).
Proof.
  intro Hne.
  destruct (rootSearch_legal depthLimit aiColor game Hne) as (m & Hin & Hm).
  exists m. split; [exact Hin|].
  unfold Main.minimaxPickMain, bind, gets.
  destruct (moves game) as [|m0 rest] eqn:Hmv; [congruence|].
  destruct (Main.rootSearch depthLimit aiColor (m0 :: rest) game)
    as [res g'].
  simpl in Hm. simpl. rewrite Hm. reflexivity.
Qed.

Lemma strategies_null (r : Q) (depthLimit : nat) (aiColor : Color)
  (game : Chess) :
  moves game = [] ->
  fst (Main.randomPick r game) = None /\
  fst (Main.greedyPick r game) = None /\
  fst (Main.minimaxPickMain depthLimit aiColor game) = None.
Proof.
  intro Hmv.
  unfold Main.randomPick, Main.greedyPick, Main.minimaxPickMain, bind, gets.
  rewrite Hmv. repeat split.
Qed.

(** C5, amended. A strategy (random, greedy, minimax) returns null when
    the position has no legal move, and a move taken from the legal moves
    when there is at least one; only the list of legal moves decides, not
    isGameOver.  (Math.random() lies in [0, 1); depthLimit >= 1.) *)
Theorem strategies_legal_or_null (r : Q) (depthLimit : nat) (aiColor : Color)
  (game : Chess) :
  (0 <= r)%Q -> (r < 1)%Q -> (1 <= depthLimit)%nat ->
  (moves game = [] ->
   fst (Main.randomPick r game) = None /\
   fst (Main.greedyPick r game) = None /\
   fst (Main.minimaxPickMain depthLimit aiColor game) = None) /\
  (moves game <> [] ->
   (exists m, In m (moves game) /\
      fst (Main.randomPick r game) = Some (Main.toShort m)) /\
   (exists m, In m (moves game) /\
      fst (Main.greedyPick r game) = Some (Main.toShort m)) /\
   (exists m, In m (moves game) /\
      fst (Main.minimaxPickMain depthLimit aiColor game)
        = Some (Main.toShort m))).
Proof.
  intros H0 H1 _. split.
  - apply strategies_null.
  - intro Hne. split; [|split].
    + apply randomPick_legal; assumption.
    + apply greedyPick_legal; assumption.
    + apply minimaxPickMain_legal; assumption.
Qed.

(** C6, amended. For one position, mode, depth and aiColor, and for one
    draw of Math.random() in the random mode (and in greedy's last resort),
    the move the worker posts is the move the foreground fallback computes:
    randomPicker, greedyPicker and minimaxPick are the same functions as
    randomPick, greedyPick and minimaxPickMain. *)
Theorem worker_move_is_fallback_move (id : Z) (position : string)
  (mode : AiMode) (depth : nat) (aiColor : Color) (r : Q) :
  Worker.res_move
    (Worker.onmessage (Chess := Chess) r
       {| Worker.req_id := id; Worker.req_fen := position;
          Worker.req_mode := mode; Worker.req_depth := depth;
          Worker.req_aiColor := aiColor |}) =
  App.fallbackMove
    {| App.fb_g := newChess position; App.fb_aiMode := mode;
       App.fb_depth := depth; App.fb_aiColor := aiColor |} r
  /\
  (forall game : Chess,
     Worker.randomPicker r game = Main.randomPick r game /\
     Worker.greedyPicker r game = Main.greedyPick r game /\
     Worker.minimaxPick depth aiColor game =
       Main.minimaxPickMain depth aiColor game).
Proof.
  split.
  - unfold Worker.onmessage, App.fallbackMove. simpl.
    destruct mode; reflexivity.
  - intro game. repeat split.
Qed.

End Legality.

(** ** The dispatch logic *)

Section DispatchFacts.
Context {Chess : Type} `{RulesEngine Chess}.

Lemma applyResult_keeps_reqId (mv : option MoveObj) (st st' : App.State) :
  App.applyResult mv st = App.Normal st' ->
  App.reqIdRef st' = App.reqIdRef st.
Proof.
  unfold App.applyResult.
  destruct mv as [o|]; [|intro E; injection E as <-; reflexivity].
  destruct (move (App.gameRef st) o); [|discriminate].
  intro E. injection E as <-. reflexivity.
Qed.

Lemma doFallback_keeps_reqId (cb : App.Fallback) (r : Q)
  (st st' : App.State) :
  App.doFallback cb r st = App.Normal st' ->
  App.reqIdRef st' = App.reqIdRef st.
Proof.
  unfold App.doFallback.
  destruct (App.applyResult (App.fallbackMove cb r) st) as [st1|] eqn:Happly;
    [|discriminate].
  simpl. intro E. injection E as <-. simpl.
  exact (applyResult_keeps_reqId _ _ _ Happly).
Qed.

Lemma onmessage_current_id (e : Worker.Res) (st : App.State) :
  Worker.res_id e = App.reqIdRef st ->
  App.onmessage e st =
  App.andThen (App.applyResult (Worker.res_move e) st)
    (fun st1 => App.Normal (App.setThinking false st1)).
Proof.
  intro Hid. unfold App.onmessage. rewrite Hid, Z.eqb_refl. reflexivity.
Qed.

(* after the deadline's fallback the id of the request is still the
   current one: an answer carrying it is not discarded *)
Lemma late_response_not_discarded (cb : App.Fallback) (r : Q)
  (e : Worker.Res) (st st' : App.State) :
  App.thinkingRef st = true ->
  Worker.res_id e = App.reqIdRef st ->
  App.timerFires true cb r st = App.Normal st' ->
  App.onmessage e st' =
  App.andThen (App.applyResult (Worker.res_move e) st')
    (fun st1 => App.Normal (App.setThinking false st1)).
Proof.
  intros Hthinking Hid Hrun. unfold App.timerFires in Hrun.
  rewrite Hthinking in Hrun. simpl in Hrun.
  apply onmessage_current_id.
  rewrite (doFallback_keeps_reqId cb r st st' Hrun). exact Hid.
Qed.


End DispatchFacts.

(** ** The tree engine keeps the contract *)

Section ToyFacts.

Lemma PieceSymbol_eqb_refl (kind : PieceSymbol) :
  PieceSymbol_eqb kind kind = true.
Proof. destruct kind; reflexivity. Qed.

Lemma matches_self (m : VerboseMove) (p : Toy.Pos) :
  Toy.matches
    {| o_from := from m; o_to := to m; o_promotion := promotion m |}
    (m, p) = true.
Proof.
  unfold Toy.matches. simpl. rewrite !String.eqb_refl. simpl.
  destruct (promotion m) as [pr|]; [apply PieceSymbol_eqb_refl | reflexivity].
Qed.

Lemma find_matches (l : list (VerboseMove * Toy.Pos)) (m : VerboseMove) :
  In m (map fst l) ->
  exists e,
    find (Toy.matches
            {| o_from := from m; o_to := to m; o_promotion := promotion m |})
      l = Some e.
Proof.
  induction l as [|[m' p'] l IH]; intro Hin; [destruct Hin|].
  simpl.
  destruct (Toy.matches _ (m', p')) eqn:Hmatch; [eexists; reflexivity|].
  destruct Hin as [Heq | Hin]; [|exact (IH Hin)].
  simpl in Heq. subst m'. rewrite matches_self in Hmatch. discriminate.
Qed.

Lemma toy_lawful (book : list Toy.Pos) :
  @LawfulEngine Toy.Game (Toy.engineOf book).
Proof.
  intros game m Hin. simpl in Hin. simpl. unfold Toy.play.
  destruct (find_matches (Toy.kids (Toy.cur game)) m Hin) as [[m' p'] ->].
  eexists. split; [reflexivity|].
  destruct game; reflexivity.
Qed.

End ToyFacts.

(** ** The theorems at work on concrete positions *)

Section Concrete.
Import Positions Scenario.
Local Open Scope string_scope.
Local Open Scope list_scope.

Lemma positions_lawful : @LawfulEngine Toy.Game engine.
Proof. exact (toy_lawful book). Qed.

Example tree_best :
  Main.rootSearch 3 White (moves (at_pos tree)) (at_pos tree) =
  (Some (mv "a2" "a3" Pawn None "a3"), Fin 500, at_pos tree).
Proof. vm_compute. reflexivity. Qed.

Example tree_best_for_black :
  Reference.fullMinimaxPick 3 Black (at_pos tree) =
  (Some (mv "b2" "b3" Pawn None "b3"), Fin 400).
Proof. vm_compute. reflexivity. Qed.

Example evaluate_queenOrQuiet : Main.evaluate (at_pos queenOrQuiet) = 500.
Proof. vm_compute. reflexivity. Qed.

Lemma alphabeta_equals_full_minimax_witness :
  (1 <= 3)%nat /\
  fst (Main.rootSearch 3 White (moves (at_pos tree)) (at_pos tree)) =
    Reference.fullMinimaxPick 3 White (at_pos tree) /\
  fst (Worker.rootSearch 3 White (moves (at_pos tree)) (at_pos tree)) =
    Reference.fullMinimaxPick 3 White (at_pos tree) /\
  fst (Main.minimaxPickMain 3 White (at_pos tree)) =
    option_map Main.toShort
      (fst (Reference.fullMinimaxPick 3 White (at_pos tree))) /\
  fst (Worker.minimaxPick 3 White (at_pos tree)) =
    option_map Main.toShort
      (fst (Reference.fullMinimaxPick 3 White (at_pos tree))).
Proof.
  split; [lia|].
  apply (alphabeta_equals_full_minimax positions_lawful (at_pos tree) 3 White).
  lia.
Defined.

(** C2 as stated fails: the mated position with the fifty-move counter at
    100 satisfies isDraw, and evaluate returns 10^9 there, not 0. *)
Lemma evaluate_draw_counterexample :
  isDraw (at_pos matedAfterFiftyMoves) = true /\
  Main.evaluate (at_pos matedAfterFiftyMoves) = 1000000000 /\
  Main.evaluate (at_pos matedAfterFiftyMoves) <> 0.
Proof. vm_compute. repeat split. discriminate. Qed.

Lemma evaluate_terminal_witness :
  (isCheckmate (at_pos stalemated) = true \/
   isDraw (at_pos stalemated) = true \/
   isStalemate (at_pos stalemated) = true) /\
  (Main.evaluate (at_pos stalemated) = 0 /\
   Worker.evaluate (at_pos stalemated) = Main.evaluate (at_pos stalemated)) /\
  (Main.evaluate (at_pos mated) = 1000000000 /\
   Worker.evaluate (at_pos mated) = Main.evaluate (at_pos mated)).
Proof.
  split; [right; right; reflexivity|]. split.
  - exact (evaluate_terminal (at_pos stalemated)
             (or_intror (or_intror eq_refl))).
  - exact (evaluate_terminal (at_pos mated) (or_introl eq_refl)).
Defined.

Lemma strategies_restore_fen_witness :
  fen (snd (Main.randomPick (1 # 2) (at_pos tree))) = fen (at_pos tree) /\
  fen (snd (Main.greedyPick (1 # 2) (at_pos tree))) = fen (at_pos tree) /\
  fen (snd (Main.minimaxPickMain 3 White (at_pos tree))) = fen (at_pos tree) /\
  fen (snd (Worker.randomPicker (1 # 2) (at_pos tree))) = fen (at_pos tree) /\
  fen (snd (Worker.greedyPicker (1 # 2) (at_pos tree))) = fen (at_pos tree) /\
  fen (snd (Worker.minimaxPick 3 White (at_pos tree))) = fen (at_pos tree).
Proof.
  exact (strategies_restore_fen positions_lawful (at_pos tree) (1 # 2) 3 White).
Defined.

(** C4 fails on the code.  The deadline expires with request 1 outstanding
    and the fallback plays 1... e5; doFallback leaves reqIdRef at 1, so the
    worker's answer to request 1, arriving after the human's 2. Nf3, passes
    the id test and its move 2... d5 is played on the authoritative game. *)
Theorem late_response_is_applied :
  humanMoved =
    App.Normal
      (true, requested,
       [App.PostMessage request; App.SetTimeout true pending 2500]) /\
  App.thinkingRef requested = true /\
  App.timerFires true pending 0 requested = App.Normal fellBack /\
  fen (App.gameRef fellBack) = "1. e4 e5" /\
  fen (App.gameRef humanMovedAgain) = "1. e4 e5 2. Nf3" /\
  Worker.res_id response = Worker.req_id request /\
  Worker.res_id response = App.reqIdRef humanMovedAgain /\
  App.onmessage response humanMovedAgain = App.Normal answered /\
  fen (App.gameRef answered) = "1. e4 e5 2. Nf3 d5" /\
  App.fenState answered = "1. e4 e5 2. Nf3 d5".
Proof. vm_compute. repeat split. Qed.

(** C5 as stated fails: king against king is game over (a draw by
    insufficient material), the king has legal moves, and every strategy
    returns one of them instead of null. *)
Lemma game_over_counterexample :
  isGameOver (at_pos bareKings) = true /\
  fst (Main.randomPick 0 (at_pos bareKings)) =
    Some {| o_from := "e2"; o_to := "d3"; o_promotion := None |} /\
  fst (Main.greedyPick 0 (at_pos bareKings)) =
    Some {| o_from := "e2"; o_to := "d3"; o_promotion := None |} /\
  fst (Main.minimaxPickMain 2 White (at_pos bareKings)) =
    Some {| o_from := "e2"; o_to := "d3"; o_promotion := None |}.
Proof. vm_compute. repeat split. Qed.

Lemma strategies_legal_or_null_witness :
  (0 <= 1 # 2)%Q /\ (1 # 2 < 1)%Q /\ (1 <= 2)%nat /\
  (moves (at_pos stalemated) = [] ->
   fst (Main.randomPick (1 # 2) (at_pos stalemated)) = None /\
   fst (Main.greedyPick (1 # 2) (at_pos stalemated)) = None /\
   fst (Main.minimaxPickMain 2 Black (at_pos stalemated)) = None) /\
  (moves (at_pos queenOrQuiet) <> [] ->
   (exists m, In m (moves (at_pos queenOrQuiet)) /\
      fst (Main.randomPick (1 # 2) (at_pos queenOrQuiet))
        = Some (Main.toShort m)) /\
   (exists m, In m (moves (at_pos queenOrQuiet)) /\
      fst (Main.greedyPick (1 # 2) (at_pos queenOrQuiet))
        = Some (Main.toShort m)) /\
   (exists m, In m (moves (at_pos queenOrQuiet)) /\
      fst (Main.minimaxPickMain 2 White (at_pos queenOrQuiet))
        = Some (Main.toShort m))).
Proof.
  assert (H0 : (0 <= 1 # 2)%Q) by (unfold Qle; simpl; lia).
  assert (H1 : (1 # 2 < 1)%Q) by (unfold Qlt; simpl; lia).
  assert (H2 : (1 <= 2)%nat) by lia.
  split; [exact H0|]. split; [exact H1|]. split; [exact H2|].
  split.
  - apply (strategies_legal_or_null (1 # 2) 2 Black (at_pos stalemated)
             H0 H1 H2).
  - apply (strategies_legal_or_null (1 # 2) 2 White (at_pos queenOrQuiet)
             H0 H1 H2).
Defined.

Lemma evaluate_material_mobility_check_witness :
  Main.evaluate (at_pos queenOrQuiet) =
  Reference.material (at_pos queenOrQuiet)
  + Reference.mobility (at_pos queenOrQuiet)
  + Reference.checkTerm (at_pos queenOrQuiet).
Proof.
  apply (evaluate_material_mobility_check (at_pos queenOrQuiet));
    reflexivity.
Defined.

(** C6 as stated fails for the random mode: on the position after 1. e4
    the worker, whose Math.random() gives 1/2, computes d7-d5, and the
    fallback, whose Math.random() gives 0, computes e7-e5. *)
Lemma random_paths_counterexample :
  Worker.req_fen request = "1. e4" /\
  App.fb_g pending = newChess "1. e4" /\
  Worker.req_mode request = App.fb_aiMode pending /\
  Worker.req_depth request = App.fb_depth pending /\
  Worker.req_aiColor request = App.fb_aiColor pending /\
  Worker.res_move (Worker.onmessage (Chess := Toy.Game) (1 # 2) request) =
    Some {| o_from := "d7"; o_to := "d5"; o_promotion := None |} /\
  App.fallbackMove pending 0 =
    Some {| o_from := "e7"; o_to := "e5"; o_promotion := None |} /\
  Worker.res_move (Worker.onmessage (Chess := Toy.Game) (1 # 2) request) <>
    App.fallbackMove pending 0.
Proof. vm_compute. repeat split. discriminate. Qed.

(** C8 as stated fails: Qxd5 is the only legal move that captures a piece
    of value at least 300, no move gives check, and greedy returns a3, for
    the capture scores 320 - 900 + 1 = -579 against 0. *)
Lemma greedy_capture_counterexample :
  In queenTakesKnight (moves (at_pos queenOrQuiet)) /\
  captured queenTakesKnight = Some Knight /\
  300 <= Reference.pieceValue Knight /\
  forallb
    (fun x =>
       match captured x with
       | Some _ => String.eqb (san x) "Qxd5"
       | None => true
       end
       && negb (Reference.marksMate x) && negb (Reference.marksCheck x))
    (moves (at_pos queenOrQuiet)) = true /\
  fst (Main.greedyPick 0 (at_pos queenOrQuiet)) =
    Some {| o_from := "a2"; o_to := "a3"; o_promotion := None |} /\
  fst (Main.greedyPick 0 (at_pos queenOrQuiet)) <>
    Some (Main.toShort queenTakesKnight).
Proof.
  split; [simpl; tauto|].
  vm_compute. repeat split; try lia; discriminate.
Qed.

Lemma greedy_single_capture_witness :
  fst (Main.greedyPick 0 (at_pos freeQueen))
    = Some (Main.toShort pawnTakesQueen) /\
  fst (Worker.greedyPicker 0 (at_pos freeQueen))
    = Some (Worker.toShort pawnTakesQueen).
Proof.
  apply (greedy_single_capture 0 (at_pos freeQueen) pawnTakesQueen Queen).
  - simpl. right. left. reflexivity.
  - reflexivity.
  - simpl. lia.
  - simpl. lia.
  - intros x Hx Hcap. simpl in Hx.
    repeat (destruct Hx as [<- | Hx];
            [try reflexivity; exfalso; apply Hcap; reflexivity|]).
    destruct Hx.
  - intros x Hx. simpl in Hx.
    repeat (destruct Hx as [<- | Hx]; [split; reflexivity|]).
    destruct Hx.
Defined.

Lemma greedy_first_maximum_witness :
  moves (at_pos freeQueen) <> [] /\
  exists m,
    firstMax (moves (at_pos freeQueen)) m /\
    fst (Main.greedyPick 0 (at_pos freeQueen)) = Some (Main.toShort m) /\
    fst (Worker.greedyPicker 0 (at_pos freeQueen)) = Some (Worker.toShort m).
Proof.
  assert (Hne : moves (at_pos freeQueen) <> []) by (simpl; discriminate).
  split; [exact Hne|].
  apply (greedy_first_maximum 0 (at_pos freeQueen) Hne).
Defined.


End Concrete.

(** * Further properties of the code *)

(** ** The evaluator: how large a score can be *)

Section EvaluatorBounds.
Context {Chess : Type} `{RulesEngine Chess}.

Lemma signedValue_range (pc : Piece) :
  -900 <= Reference.signedValue pc <= 900.
Proof.
  unfold Reference.signedValue.
  pose proof (pieceValue_range (sq_type pc)).
  destruct (sq_color pc); lia.
Qed.

Lemma sum_signed_range (l : list Piece) :
  Z.abs (Reference.sumZ (map Reference.signedValue l))
  <= 900 * Z.of_nat (List.length l).
Proof.
  induction l as [|pc l IH].
  - simpl. lia.
  - change (Reference.sumZ (map Reference.signedValue (pc :: l)))
      with (Reference.signedValue pc
            + Reference.sumZ (map Reference.signedValue l)).
    pose proof (signedValue_range pc).
    change (List.length (pc :: l)) with (S (List.length l)).
    lia.
Qed.

Lemma occupied_length (squares : list (option Piece)) :
  (List.length
     (flat_map (fun sq => match sq with Some pc => [pc] | None => [] end)
        squares)
   <= List.length squares)%nat.
Proof.
  induction squares as [|sq squares IH]; simpl; [lia|].
  destruct sq; simpl; lia.
Qed.

Lemma material_range (game : Chess) :
  Z.abs (Reference.material game)
  <= 900 * Z.of_nat (List.length (List.concat (board game))).
Proof.
  unfold Reference.material, Reference.occupied.
  pose proof (sum_signed_range
                (flat_map
                   (fun sq => match sq with Some pc => [pc] | None => [] end)
                   (List.concat (board game)))).
  pose proof (occupied_length (List.concat (board game))).
  lia.
Qed.

Lemma positional_range (game : Chess) :
  Z.abs (Reference.mobility game + Reference.checkTerm game) <= 30.
Proof.
  unfold Reference.mobility, Reference.checkTerm.
  destruct (turn game), (inCheck game); lia.
Qed.

(** X1. On a board of at most 64 squares, evaluate returns +-10^9 on a
    checkmate position and a score of magnitude at most 57630 on every
    other position: no position that is not checkmate reaches the mate
    score. *)
Theorem evaluate_mate_score_dominates (game : Chess) :
  (List.length (List.concat (board game)) <= 64)%nat ->
  (isCheckmate game = true /\ Z.abs (Main.evaluate game) = 1000000000) \/
  (isCheckmate game = false /\ Z.abs (Main.evaluate game) <= 57630).
Proof.
  intro Hsize. rewrite evaluate_cases.
  destruct (isCheckmate game).
  - left. split; [reflexivity|]. destruct (turn game); reflexivity.
  - right. split; [reflexivity|].
    destruct (isDraw game || isStalemate game || isInsufficientMaterial game
              || isThreefoldRepetition game); [simpl; lia|].
    pose proof (material_range game). pose proof (positional_range game).
    lia.
Qed.

(** X2. On a position that is neither checkmate nor drawn, the score
    differs from the material balance by at most 30: mobility and the check
    penalty together never weigh as much as a pawn. *)
Theorem evaluate_close_to_material (game : Chess) :
  isCheckmate game = false ->
  isDraw game = false ->
  isStalemate game = false ->
  isInsufficientMaterial game = false ->
  isThreefoldRepetition game = false ->
  Z.abs (Main.evaluate game - Reference.material game) <= 30 /\
  Z.abs (Worker.evaluate game - Reference.material game) <= 30.
Proof.
  intros Hmate Hdraw Hstale Hins Hrep.
  change (Worker.evaluate game) with (Main.evaluate game).
  rewrite evaluate_cases, Hmate, Hdraw, Hstale, Hins, Hrep. simpl.
  pose proof (positional_range game). split; lia.
Qed.

End EvaluatorBounds.

(** ** The search: values, windows and the choice at the root *)

Section SearchValues.
Context {Chess : Type} `{RulesEngine Chess}.


Hypothesis lawful : LawfulEngine.

Lemma minimaxValue_finite (depth : nat) (game : Chess) :
  finite (Reference.minimaxValue depth game).
Proof.
  pose proof (search_finite depth NegInf PosInf game) as Hf.
  rewrite (search_full_window lawful) in Hf. exact Hf.
Qed.

(** X4. With alpha < beta, the value search returns is exact when it lies
    strictly between alpha and beta; at or below alpha it is an upper bound
    of the unpruned minimax value, at or above beta a lower bound. *)
Theorem search_fail_soft (depth : nat) (alpha beta : Num) (game : Chess) :
  Nlt alpha beta ->
  let r := fst (Main.search depth alpha beta game) in
  let v := Reference.minimaxValue depth game in
  (Nlt alpha r -> Nlt r beta -> r = v) /\
  (Nle r alpha -> Nle v r) /\
  (Nle beta r -> Nle r v).
Proof.
  intros Hwin r v.
  destruct (search_within lawful depth game alpha beta Hwin)
    as (Hlow & Hmid & Hhigh).
  fold r in Hlow, Hmid, Hhigh. fold v in Hlow, Hmid, Hhigh.
  split; [|split; assumption].
  intros Ha Hb. destruct (Hmid Ha Hb) as [H1 H2].
  symmetry. apply Nle_antisym; assumption.
Qed.

End SearchValues.

Section RootChoice.

Lemma betterFor_true (c : Color) (x y : Num) :
  Reference.betterFor c x y = true -> strictlyBetter c x y.
Proof.
  destruct c; simpl; unfold Ngtb, Nltb; intro Hb;
    apply negb_true_iff in Hb; apply Nleb_false in Hb; exact Hb.
Qed.

Lemma betterFor_false (c : Color) (x y : Num) :
  Reference.betterFor c x y = false -> atLeastAsGood c y x.
Proof.
  destruct c; simpl; unfold Ngtb, Nltb; intro Hb;
    apply negb_false_iff in Hb; apply Nleb_true in Hb; exact Hb.
Qed.

Lemma strictlyBetter_trans (c : Color) (x y z : Num) :
  strictlyBetter c x y -> strictlyBetter c y z -> strictlyBetter c x z.
Proof. destruct c; simpl; num_cases. Qed.

Lemma strictlyBetter_atLeast (c : Color) (x y z : Num) :
  strictlyBetter c x y -> atLeastAsGood c y z -> strictlyBetter c x z.
Proof. destruct c; simpl; num_cases. Qed.

Lemma strictly_atLeast (c : Color) (x y : Num) :
  strictlyBetter c x y -> atLeastAsGood c x y.
Proof. destruct c; simpl; num_cases. Qed.

Lemma atLeastAsGood_refl (c : Color) (x : Num) : atLeastAsGood c x x.
Proof. destruct c; simpl; num_cases. Qed.

Lemma rootFold_keeps (c : Color) (F : VerboseMove -> Num)
  (ms before mid : list VerboseMove) (m : VerboseMove) :
  (forall x, In x before -> strictlyBetter c (F m) (F x)) ->
  (forall x, In x mid -> atLeastAsGood c (F m) (F x)) ->
  exists m',
    fold_left (rootStep c F) ms (Some m, F m) = (Some m', F m') /\
    firstBest c F (before ++ m :: mid ++ ms) m'.
Proof.
  revert before mid m.
  induction ms as [|x ms IH]; intros before mid m Hlt Hle; simpl.
  - exists m. split; [reflexivity|].
    exists before, mid. rewrite app_nil_r. auto.
  - unfold rootStep at 2. simpl snd.
    destruct (Reference.betterFor c (F x) (F m)) eqn:Hb.
    + apply betterFor_true in Hb.
      destruct (IH (before ++ m :: mid) [] x) as (m' & Hrun & Hfb).
      * intros y Hy. apply in_app_or in Hy as [Hy | [<- | Hy]].
        -- eapply strictlyBetter_trans; [exact Hb | apply Hlt, Hy].
        -- exact Hb.
        -- eapply strictlyBetter_atLeast; [exact Hb | apply Hle, Hy].
      * intros y [].
      * exists m'. split; [exact Hrun|].
        replace (before ++ m :: mid ++ x :: ms)
          with ((before ++ m :: mid) ++ x :: [] ++ ms); [exact Hfb|].
        rewrite <- app_assoc. reflexivity.
    + apply betterFor_false in Hb.
      destruct (IH before (mid ++ [x]) m Hlt) as (m' & Hrun & Hfb).
      * intros y Hy. apply in_app_or in Hy as [Hy | [<- | []]].
        -- apply Hle, Hy.
        -- exact Hb.
      * exists m'. split; [exact Hrun|].
        replace (before ++ m :: mid ++ x :: ms)
          with (before ++ m :: (mid ++ [x]) ++ ms); [exact Hfb|].
        rewrite <- app_assoc. reflexivity.
Qed.

Lemma rootFold_firstBest (c : Color) (F : VerboseMove -> Num)
  (m0 : VerboseMove) (rest : list VerboseMove) :
  finite (F m0) ->
  exists m,
    fold_left (rootStep c F) (m0 :: rest)
      (None, match c with White => NegInf | Black => PosInf end)
    = (Some m, F m) /\
    firstBest c F (m0 :: rest) m.
Proof.
  intros [z Hz]. simpl. unfold rootStep at 2. simpl snd. rewrite Hz.
  assert (Hb : Reference.betterFor c (Fin z)
                 (match c with White => NegInf | Black => PosInf end) = true)
    by (destruct c; reflexivity).
  rewrite Hb, <- Hz.
  destruct (rootFold_keeps c F rest [] [] m0) as (m & Hrun & Hfb).
  - intros x [].
  - intros x [].
  - exists m. split; [exact Hrun | exact Hfb].
Qed.

Lemma firstBest_best (c : Color) (F : VerboseMove -> Num)
  (ms : list VerboseMove) (m x : VerboseMove) :
  firstBest c F ms m -> In x ms -> atLeastAsGood c (F m) (F x).
Proof.
  intros (before & after & -> & Hlt & Hle) Hx.
  apply in_app_or in Hx as [Hx | [<- | Hx]].
  - apply strictly_atLeast, Hlt, Hx.
  - apply atLeastAsGood_refl.
  - apply Hle, Hx.
Qed.

Context {Chess : Type} `{RulesEngine Chess}.
Hypothesis lawful : LawfulEngine.

Lemma rootSearch_firstBest (depthLimit : nat) (aiColor : Color)
  (game : Chess) :
  moves game <> [] ->
  exists m,
    firstBest aiColor (rootValue depthLimit game) (moves game) m /\
    fst (Main.rootSearch depthLimit aiColor (moves game) game) =
      (Some m, rootValue depthLimit game m).
Proof.
  intro Hne. rewrite (rootSearch_full lawful). simpl fst.
  unfold Reference.fullMinimaxPick.
  destruct (moves game) as [|m0 rest] eqn:Hmv; [congruence|].
  destruct (rootFold_firstBest aiColor (rootValue depthLimit game) m0 rest)
    as (m & Hrun & Hfb).
  - apply (minimaxValue_finite lawful).
  - exists m. split; [exact Hfb|]. exact Hrun.
Qed.

(** X5. With at least one legal move, minimax returns the first root move,
    in enumeration order, whose unpruned minimax value is best for aiColor
    (greatest for White, least for Black): earlier moves are strictly worse,
    later ones no better; bestScore is that value. *)
Theorem minimax_first_best (depthLimit : nat) (aiColor : Color)
  (game : Chess) :
  (1 <= depthLimit)%nat ->
  moves game <> [] ->
  exists m,
    firstBest aiColor (rootValue depthLimit game) (moves game) m /\
    fst (Main.rootSearch depthLimit aiColor (moves game) game) =
      (Some m, rootValue depthLimit game m) /\
    fst (Main.minimaxPickMain depthLimit aiColor game) =
      Some (Main.toShort m) /\
    fst (Worker.minimaxPick depthLimit aiColor game) =
      Some (Worker.toShort m).
Proof.
  intros _ Hne.
  destruct (rootSearch_firstBest depthLimit aiColor game Hne)
    as (m & Hfb & Hroot).
  exists m. split; [exact Hfb|]. split; [exact Hroot|].
  change (Worker.minimaxPick depthLimit aiColor game)
    with (Main.minimaxPickMain depthLimit aiColor game).
  rewrite (minimaxPickMain_full lawful).
  rewrite (rootSearch_full lawful) in Hroot. simpl in Hroot.
  rewrite Hroot. split; reflexivity.
Qed.

(** X6. When a legal move of the AI checkmates the opponent, the best score
    minimax finds is at least as good for the AI as the mate score: at least
    10^9 for White, at most -10^9 for Black. *)
Theorem minimax_scores_mate_in_one (depthLimit : nat) (aiColor : Color)
  (game : Chess) (m : VerboseMove) :
  (1 <= depthLimit)%nat ->
  In m (moves game) ->
  isCheckmate (Reference.child game m) = true ->
  isGameOver (Reference.child game m) = true ->
  turn (Reference.child game m) <> aiColor ->
  atLeastAsGood aiColor
    (snd (fst (Main.rootSearch depthLimit aiColor (moves game) game)))
    (Fin (match aiColor with
          | White => 1000000000
          | Black => -1000000000
          end)).
Proof.
  intros _ Hin Hmate Hover Hturn.
  assert (Hne : moves game <> []) by (intro E; rewrite E in Hin; exact Hin).
  destruct (rootSearch_firstBest depthLimit aiColor game Hne)
    as (m' & Hfb & Hroot).
  rewrite Hroot. simpl snd.
  assert (Hval : rootValue depthLimit game m =
                 Fin (match aiColor with
                      | White => 1000000000
                      | Black => -1000000000
                      end)).
  { unfold rootValue.
    assert (E : Reference.minimaxValue (depthLimit - 1)
                  (Reference.child game m)
                = Fin (Main.evaluate (Reference.child game m))).
    { destruct (depthLimit - 1)%nat; [reflexivity|].
      rewrite (minimaxValue_succ). rewrite Hover. reflexivity. }
    rewrite E, evaluate_cases, Hmate.
    destruct aiColor, (turn (Reference.child game m)); congruence. }
  rewrite <- Hval. eapply firstBest_best; [exact Hfb | exact Hin].
Qed.

Lemma rootStep_max (F : VerboseMove -> Num) (ms : list VerboseMove) :
  forall acc,
    snd (fold_left (rootStep White F) ms acc) =
    fold_left (fun val m => Nmax val (F m)) ms (snd acc).
Proof.
  induction ms as [|x ms IH]; intro acc; simpl; [reflexivity|].
  rewrite IH. f_equal. unfold rootStep. simpl.
  destruct acc as [b s]. simpl.
  unfold Ngtb, Nmax.
  destruct (F x) as [|fx|], s as [|sv|]; simpl; try reflexivity.
  destruct (Z.leb_spec fx sv), (Z.leb_spec sv fx); simpl;
    try reflexivity; try lia; try (f_equal; lia).
Qed.

Lemma rootStep_min (F : VerboseMove -> Num) (ms : list VerboseMove) :
  forall acc,
    snd (fold_left (rootStep Black F) ms acc) =
    fold_left (fun val m => Nmin val (F m)) ms (snd acc).
Proof.
  induction ms as [|x ms IH]; intro acc; simpl; [reflexivity|].
  rewrite IH. f_equal. unfold rootStep. simpl.
  destruct acc as [b s]. simpl.
  unfold Nltb, Nmin.
  destruct (F x) as [|fx|], s as [|sv|]; simpl; try reflexivity.
  destruct (Z.leb_spec fx sv), (Z.leb_spec sv fx); simpl;
    try reflexivity; try lia; try (f_equal; lia).
Qed.

(** X7. When the AI is the side to move, the game is not over and there is
    a legal move, the best score at the root is the unpruned minimax value
    of the position itself at depth depthLimit: the loop over the root
    moves is one more ply of the same search. *)
Theorem root_score_is_minimax_value (depthLimit : nat) (game : Chess) :
  (1 <= depthLimit)%nat ->
  isGameOver game = false ->
  moves game <> [] ->
  snd (fst (Main.rootSearch depthLimit (turn game) (moves game) game)) =
  Reference.minimaxValue depthLimit game.
Proof.
  intros Hdepth Hover Hne.
  rewrite (rootSearch_full lawful). simpl fst.
  unfold Reference.fullMinimaxPick.
  destruct depthLimit as [|d]; [lia|].
  rewrite minimaxValue_succ, Hover.
  replace (S d - 1)%nat with d by lia.
  destruct (moves game) as [|m0 rest] eqn:Hmv; [congruence|].
  destruct (turn game).
  - apply (rootStep_max
             (fun m => Reference.minimaxValue d (Reference.child game m))).
  - apply (rootStep_min
             (fun m => Reference.minimaxValue d (Reference.child game m))).
Qed.

End RootChoice.

(** ** Greedy and random: what the draw of Math.random() can change *)

Section Picks.
Context {Chess : Type} `{RulesEngine Chess}.

(** X8. greedyPick never reaches its random last resort: its result does
    not depend on the draw of Math.random().  The same holds for the
    worker's greedyPicker. *)
Theorem greedy_ignores_random (r1 r2 : Q) (game : Chess) :
  Main.greedyPick r1 game = Main.greedyPick r2 game /\
  Worker.greedyPicker r1 game = Worker.greedyPicker r2 game.
Proof.
  change (Worker.greedyPicker r1 game) with (Main.greedyPick r1 game).
  change (Worker.greedyPicker r2 game) with (Main.greedyPick r2 game).
  assert (E : Main.greedyPick r1 game = Main.greedyPick r2 game).
  { unfold Main.greedyPick, bind, gets.
    destruct (moves game) as [|m0 rest]; [reflexivity|].
    destruct (greedyLoop_firstMax m0 rest) as (m & Hrun & _).
    rewrite Hrun. reflexivity. }
  split; exact E.
Qed.

Lemma captureTerm_range (m : VerboseMove) :
  -899 <= Reference.captureTerm m <= 901.
Proof.
  unfold Reference.captureTerm.
  destruct (captured m) as [c|]; [|lia].
  pose proof (pieceValue_range c). pose proof (pieceValue_range (piece m)).
  lia.
Qed.

(** X9. When the notation of some legal move marks checkmate, greedy
    returns a move whose notation marks checkmate: no capture or check can
    outweigh the 10^9 of a mate. *)
Theorem greedy_takes_mate (r : Q) (game : Chess) (x : VerboseMove) :
  In x (moves game) ->
  Reference.marksMate x = true ->
  exists m,
    In m (moves game) /\
    Reference.marksMate m = true /\
    fst (Main.greedyPick r game) = Some (Main.toShort m) /\
    fst (Worker.greedyPicker r game) = Some (Worker.toShort m).
Proof.
  intros Hin Hmate.
  assert (Hne : moves game <> []) by (intro E; rewrite E in Hin; exact Hin).
  destruct (greedyPick_firstMax r game Hne) as (m & Hfm & Hrun).
  exists m.
  assert (Hm : In m (moves game)).
  { destruct Hfm as (l1 & l2 & E & _). rewrite E. apply in_elt. }
  assert (Hge : Reference.onePlyScore x <= Reference.onePlyScore m).
  { destruct Hfm as (l1 & l2 & E & Hlt & Hle).
    rewrite E in Hin. apply in_app_or in Hin as [Hi | [<- | Hi]].
    - specialize (Hlt x Hi). lia.
    - lia.
    - apply Hle, Hi. }
  split; [exact Hm|]. split.
  - unfold Reference.onePlyScore, Reference.notationTerm in Hge.
    rewrite Hmate in Hge.
    pose proof (captureTerm_range x). pose proof (captureTerm_range m).
    destruct (Reference.marksMate m); [reflexivity|].
    destruct (Reference.marksCheck m); lia.
  - change (Worker.greedyPicker r game) with (Main.greedyPick r game).
    rewrite Hrun. split; reflexivity.
Qed.

Lemma randomIndex_dyadic (c : Z) (i len : nat) :
  Z.of_nat i * 67108864 <= c * Z.of_nat len ->
  c * Z.of_nat len < (Z.of_nat i + 1) * 67108864 ->
  randomIndex (c # 67108864) len = Z.of_nat i.
Proof.
  intros Hlo Hhi. unfold randomIndex, Qfloor, Qmult, inject_Z.
  cbn [Qnum Qden]. rewrite Pos.mul_1_r.
  symmetry.
  apply Z.div_unique with (r := c * Z.of_nat len - Z.of_nat i * 67108864);
    lia.
Qed.

(** X10. Every legal move can be the answer of the random strategy.  On a
    position with at most 2^26 legal moves there is, for each legal move, a
    draw c / 2^26 with 0 <= c < 2^26, a double in [0, 1), for which
    randomPick (and the worker's randomPicker) returns it; the numerator
    c * ms.length of the product stays below 2^53, so that the product
    Math.random() * ms.length is exact in doubles. *)
Theorem random_reaches_every_move (game : Chess) (m : VerboseMove) :
  In m (moves game) ->
  Z.of_nat (List.length (moves game)) <= 67108864 ->
  exists c : Z,
    0 <= c < 67108864 /\
    c * Z.of_nat (List.length (moves game)) < 9007199254740992 /\
    fst (Main.randomPick (c # 67108864) game) = Some (Main.toShort m) /\
    fst (Worker.randomPicker (c # 67108864) game)
      = Some (Worker.toShort m).
Proof.
  intros Hin Hsmall.
  destruct (In_nth_error _ _ Hin) as [i Hi].
  assert (Hlt : (i < List.length (moves game))%nat).
  { apply nth_error_Some. rewrite Hi. discriminate. }
  set (len := Z.of_nat (List.length (moves game))) in *.
  set (c := (Z.of_nat i * 67108864 + len - 1) / len).
  assert (Hlen : 0 < len) by (subst len; lia).
  assert (Hi_len : Z.of_nat i + 1 <= len) by (subst len; lia).
  assert (Hdiv : Z.of_nat i * 67108864 + len - 1
                 = len * c + (Z.of_nat i * 67108864 + len - 1) mod len)
    by (apply Z.div_mod; lia).
  pose proof (Z.mod_pos_bound (Z.of_nat i * 67108864 + len - 1) len Hlen)
    as Hrem.
  assert (Hlo : Z.of_nat i * 67108864 <= c * len) by lia.
  assert (Hhi : c * len < (Z.of_nat i + 1) * 67108864) by lia.
  assert (Hc0 : 0 <= c) by (apply Z.div_pos; lia).
  assert (Hc1 : c < 67108864) by nia.
  exists c.
  split; [lia|]. split; [nia|].
  change (Worker.randomPicker (c # 67108864) game)
    with (Main.randomPick (c # 67108864) game).
  assert (Hpick : fst (Main.randomPick (c # 67108864) game)
                  = Some (Main.toShort m)).
  { assert (Hat : Main.toShort_at (moves game)
                    (randomIndex (c # 67108864) (List.length (moves game)))
                  = Some (Main.toShort m)).
    { unfold Main.toShort_at, at_index.
      rewrite (randomIndex_dyadic c i (List.length (moves game)) Hlo Hhi).
      destruct (Z.ltb_spec (Z.of_nat i) 0); [lia|].
      rewrite Nat2Z.id, Hi. reflexivity. }
    unfold Main.randomPick, bind, gets.
    revert Hat. clear. destruct (moves game) as [|m0 rest]; intro Hat.
    - unfold Main.toShort_at, at_index in Hat.
      destruct (_ <? 0) in Hat; [discriminate|].
      destruct (Z.to_nat _) in Hat; discriminate.
    - exact Hat. }
  rewrite Hpick. split; reflexivity.
Qed.

End Picks.

(** ** The component: what every handler keeps *)

Ltac unchanged := simpl; repeat split; auto; try congruence.

Section Handlers.
Context {Chess : Type} `{RulesEngine Chess}.
Variable reset : Chess -> Chess.

Local Abbreviation State := (@App.State Chess).

(* the three ways maybeAIMove can end *)
Lemma maybeAIMove_cases (st : State) :
  App.maybeAIMove st = (st, []) \/
  (aiDue st /\ App.workerRef st = false /\
   App.maybeAIMove st =
     (App.setThinking true st,
      [App.SetTimeout false
         {| App.fb_g := newChess (fen (App.gameRef st));
            App.fb_aiMode := App.aiMode st; App.fb_depth := App.depth st;
            App.fb_aiColor := App.aiColorOf (App.aiPlays st) |} 0])) \/
  (aiDue st /\ App.workerRef st = true /\
   App.maybeAIMove st =
     (App.bumpReqId (App.setThinking true st),
      [App.PostMessage
         {| Worker.req_id := App.reqIdRef st + 1;
            Worker.req_fen := fen (newChess (fen (App.gameRef st)));
            Worker.req_mode := App.aiMode st;
            Worker.req_depth := App.depth st;
            Worker.req_aiColor := App.aiColorOf (App.aiPlays st) |};
       App.SetTimeout true
         {| App.fb_g := newChess (fen (App.gameRef st));
            App.fb_aiMode := App.aiMode st; App.fb_depth := App.depth st;
            App.fb_aiColor := App.aiColorOf (App.aiPlays st) |} 2500])).
Proof.
  unfold App.maybeAIMove, aiDue.
  destruct (App.playVsAI st) eqn:Hplay; [|left; reflexivity].
  destruct (isGameOver (App.gameRef st)) eqn:Hover; [left; reflexivity|].
  destruct (Color_eqb (turn (App.gameRef st))
              (App.aiColorOf (App.aiPlays st))) eqn:Hturn;
    [|left; reflexivity].
  destruct (App.thinkingRef st) eqn:Hthink; [left; reflexivity|].
  assert (Ht : turn (App.gameRef st) = App.aiColorOf (App.aiPlays st)).
  { destruct (turn (App.gameRef st)), (App.aiColorOf (App.aiPlays st));
      simpl in Hturn; congruence. }
  simpl. unfold App.requestAiMoveWithFallback. simpl.
  destruct (App.workerRef st) eqn:Hw; simpl.
  - right. right. repeat split; assumption.
  - right. left. repeat split; assumption.
Qed.

Lemma maybeAIMove_frame (st : State) :
  App.gameRef (fst (App.maybeAIMove st)) = App.gameRef st /\
  App.fenState (fst (App.maybeAIMove st)) = App.fenState st /\
  App.aiMode (fst (App.maybeAIMove st)) = App.aiMode st /\
  (App.thinkingRef st = App.isThinking st ->
   App.thinkingRef (fst (App.maybeAIMove st))
   = App.isThinking (fst (App.maybeAIMove st))) /\
  (App.thinkingRef st = true ->
   App.maybeAIMove st = (st, [])).
Proof.
  destruct (maybeAIMove_cases st)
    as [E | [(Hdue & _ & E) | (Hdue & _ & E)]]; rewrite E; simpl;
    repeat split; auto;
    intro Ht; destruct Hdue as (_ & _ & _ & Hf); congruence.
Qed.

Lemma maybeAIMove_ids (st : State) :
  (Controls.postedIds (snd (App.maybeAIMove st)) = [] /\
   App.reqIdRef (fst (App.maybeAIMove st)) = App.reqIdRef st) \/
  (Controls.postedIds (snd (App.maybeAIMove st)) = [App.reqIdRef st + 1] /\
   App.reqIdRef (fst (App.maybeAIMove st)) = App.reqIdRef st + 1).
Proof.
  destruct (maybeAIMove_cases st)
    as [E | [(_ & _ & E) | (_ & _ & E)]]; rewrite E; simpl; auto.
Qed.

Lemma applyResult_frame (mv : option MoveObj) (st st' : State) :
  App.applyResult mv st = App.Normal st' ->
  App.reqIdRef st' = App.reqIdRef st /\
  App.thinkingRef st' = App.thinkingRef st /\
  App.isThinking st' = App.isThinking st /\
  App.aiMode st' = App.aiMode st /\
  (App.fenState st = fen (App.gameRef st) ->
   App.fenState st' = fen (App.gameRef st')) /\
  (App.gameRef st' = App.gameRef st \/
   exists o, move (App.gameRef st) o = Some (App.gameRef st')).
Proof.
  unfold App.applyResult.
  destruct mv as [o|].
  - destruct (move (App.gameRef st) o) as [g'|] eqn:Hmove; [|discriminate].
    intro E. injection E as <-. simpl. repeat split; auto.
    right. exists o. exact Hmove.
  - intro E. injection E as <-. repeat split; auto.
Qed.

(* a handler that applies a move and then clears the thinking flags *)
Lemma applied_frame (mv : option MoveObj) (st : State) :
  let st' := Controls.completed st
               (App.andThen (App.applyResult mv st)
                  (fun st1 => App.Normal (App.setThinking false st1))) in
  App.reqIdRef st' = App.reqIdRef st /\
  (App.fenState st = fen (App.gameRef st) ->
   App.fenState st' = fen (App.gameRef st')) /\
  (App.thinkingRef st = App.isThinking st ->
   App.thinkingRef st' = App.isThinking st') /\
  (App.gameRef st' = App.gameRef st \/
   exists o, move (App.gameRef st) o = Some (App.gameRef st')).
Proof.
  destruct (App.applyResult mv st) as [st1|] eqn:Happly; simpl.
  - destruct (applyResult_frame mv st st1 Happly)
      as (Hid & _ & _ & _ & Hsync & Hgame).
    repeat split; auto.
  - repeat split; auto.
Qed.

(* what one turn of the event loop does to the state *)
Lemma step_frame (ev : Controls.Event) (st : State) :
  let st' := fst (Controls.step reset ev st) in
  (App.fenState st = fen (App.gameRef st) ->
   App.fenState st' = fen (App.gameRef st')) /\
  (App.thinkingRef st = App.isThinking st ->
   App.thinkingRef st' = App.isThinking st') /\
  (App.gameRef st' = App.gameRef st \/
   (exists o, move (App.gameRef st) o = Some (App.gameRef st')) \/
   (ev = Controls.ClickNewGame /\ App.gameRef st' = reset (App.gameRef st))).
Proof.
  destruct ev; simpl.
  - (* Drop *)
    unfold App.onDrop.
    destruct (App.isThinking st) eqn:Hthinking; [unchanged|].
    match goal with
    | |- context [move (App.gameRef st) ?o] =>
        destruct (move (App.gameRef st) o) as [g'|] eqn:Hmove
    end; [|unchanged].
    match goal with
    | |- context [App.maybeAIMove ?s] =>
        destruct (maybeAIMove_frame s) as (Hg & Hf & _ & Ht & _);
        destruct (App.maybeAIMove s) as [s' effs]
    end.
    simpl in *. rewrite Hg, Hf.
    split; [auto|]. split; [intro; apply Ht; congruence|].
    right. left. eexists. exact Hmove.
  - (* ClickNewGame *)
    unfold Controls.resetGame.
    match goal with
    | |- context [App.maybeAIMove ?s] =>
        destruct (maybeAIMove_frame s) as (Hg & Hf & _ & Ht & _)
    end.
    rewrite Hg, Hf. simpl. repeat split; auto.
  - (* ClickMode *)
    unfold App.clickMode.
    destruct (maybeAIMove_frame (App.flipPlayVsAI st))
      as (Hg & Hf & _ & Ht & _).
    rewrite Hg, Hf. simpl. repeat split; auto.
  - (* ClickAiPlays *)
    unfold Controls.clickAiPlays.
    match goal with
    | |- context [App.maybeAIMove ?s] =>
        destruct (maybeAIMove_frame s) as (Hg & Hf & _ & Ht & _)
    end.
    rewrite Hg, Hf. simpl. repeat split; auto.
  - (* ClickAiMode *)
    unfold Controls.clickAiMode.
    match goal with
    | |- context [App.maybeAIMove ?s] =>
        destruct (maybeAIMove_frame s) as (Hg & Hf & _ & Ht & _)
    end.
    rewrite Hg, Hf. simpl. repeat split; auto.
  - (* SelectDepth *)
    unfold Controls.selectDepth.
    destruct (Nat.eqb d (App.depth st)); [unchanged|].
    match goal with
    | |- context [App.maybeAIMove ?s] =>
        destruct (maybeAIMove_frame s) as (Hg & Hf & _ & Ht & _)
    end.
    rewrite Hg, Hf. simpl. repeat split; auto.
  - (* TimerFires *)
    unfold App.timerFires.
    destruct (guarded && negb (App.thinkingRef st)); [unchanged|].
    unfold App.doFallback.
    destruct (applied_frame (App.fallbackMove cb r) st)
      as (_ & Hsync & Hthink & Hgame).
    repeat split; auto.
    destruct Hgame as [E | E]; auto.
  - (* WorkerMessage *)
    unfold App.onmessage.
    destruct (negb (Worker.res_id e =? App.reqIdRef st)); [unchanged|].
    destruct (applied_frame (Worker.res_move e) st)
      as (_ & Hsync & Hthink & Hgame).
    repeat split; auto.
    destruct Hgame as [E | E]; auto.
  - (* WorkerError *)
    unchanged.
Qed.

Lemma step_ids (ev : Controls.Event) (st : State) :
  (Controls.postedIds (snd (Controls.step reset ev st)) = [] /\
   App.reqIdRef (fst (Controls.step reset ev st)) = App.reqIdRef st) \/
  (Controls.postedIds (snd (Controls.step reset ev st))
   = [App.reqIdRef st + 1] /\
   App.reqIdRef (fst (Controls.step reset ev st)) = App.reqIdRef st + 1).
Proof.
  destruct ev; simpl.
  - unfold App.onDrop.
    destruct (App.isThinking st); [simpl; auto|].
    match goal with
    | |- context [move (App.gameRef st) ?o] =>
        destruct (move (App.gameRef st) o) as [g'|]
    end; [|simpl; auto].
    match goal with
    | |- context [App.maybeAIMove ?s] =>
        pose proof (maybeAIMove_ids s) as Hids;
        destruct (App.maybeAIMove s) as [s' effs]
    end.
    exact Hids.
  - unfold Controls.resetGame.
    match goal with
    | |- context [App.maybeAIMove ?s] => exact (maybeAIMove_ids s)
    end.
  - exact (maybeAIMove_ids (App.flipPlayVsAI st)).
  - unfold Controls.clickAiPlays.
    match goal with
    | |- context [App.maybeAIMove ?s] => exact (maybeAIMove_ids s)
    end.
  - unfold Controls.clickAiMode.
    match goal with
    | |- context [App.maybeAIMove ?s] => exact (maybeAIMove_ids s)
    end.
  - unfold Controls.selectDepth.
    destruct (Nat.eqb d (App.depth st)); [simpl; auto|].
    match goal with
    | |- context [App.maybeAIMove ?s] => exact (maybeAIMove_ids s)
    end.
  - left. split; [reflexivity|].
    unfold App.timerFires.
    destruct (guarded && negb (App.thinkingRef st)); [reflexivity|].
    unfold App.doFallback.
    apply (applied_frame (App.fallbackMove cb r) st).
  - left. split; [reflexivity|].
    unfold App.onmessage.
    destruct (negb (Worker.res_id e =? App.reqIdRef st)); [reflexivity|].
    apply (applied_frame (Worker.res_move e) st).
  - left. split; reflexivity.
Qed.

(** X11. Whatever happens to the component (user actions, timers, worker
    messages and errors, in any order), the displayed FEN stays the FEN of
    the authoritative game once the two agree. *)
Theorem displayed_fen_follows_game (evs : list Controls.Event) (st : State) :
  App.fenState st = fen (App.gameRef st) ->
  App.fenState (fst (Controls.run reset evs st))
  = fen (App.gameRef (fst (Controls.run reset evs st))).
Proof.
  revert st. induction evs as [|ev evs IH]; intros st Hsync; [exact Hsync|].
  simpl.
  pose proof (proj1 (step_frame ev st) Hsync) as Hstep.
  destruct (Controls.step reset ev st) as [st1 effs1].
  specialize (IH st1 Hstep).
  destruct (Controls.run reset evs st1) as [st2 effs2]. exact IH.
Qed.

(** X12. The ref thinkingRef and the state isThinking never part: every
    handler sets them together. *)
Theorem thinking_flags_agree (evs : list Controls.Event) (st : State) :
  App.thinkingRef st = App.isThinking st ->
  App.thinkingRef (fst (Controls.run reset evs st))
  = App.isThinking (fst (Controls.run reset evs st)).
Proof.
  revert st. induction evs as [|ev evs IH]; intros st Hsync; [exact Hsync|].
  simpl.
  pose proof (proj1 (proj2 (step_frame ev st)) Hsync) as Hstep.
  destruct (Controls.step reset ev st) as [st1 effs1].
  specialize (IH st1 Hstep).
  destruct (Controls.run reset evs st1) as [st2 effs2]. exact IH.
Qed.

Lemma postedIds_app (l1 l2 : list (@App.Effect Chess)) :
  Controls.postedIds (l1 ++ l2)
  = Controls.postedIds l1 ++ Controls.postedIds l2.
Proof. unfold Controls.postedIds. apply flat_map_app. Qed.

(** X13. The requests posted to the worker carry consecutive ids: along
    any sequence of events the n-th request has id reqIdRef + n, counted
    from the value of reqIdRef at the start, and reqIdRef ends at the id of
    the last one. *)
Theorem request_ids_are_consecutive (evs : list Controls.Event) (st : State) :
  let ids := Controls.postedIds (snd (Controls.run reset evs st)) in
  ids = map (fun k => App.reqIdRef st + Z.of_nat k)
          (seq 1 (List.length ids)) /\
  App.reqIdRef (fst (Controls.run reset evs st))
  = App.reqIdRef st + Z.of_nat (List.length ids).
Proof.
  revert st. induction evs as [|ev evs IH]; intro st.
  - simpl. split; [reflexivity | lia].
  - simpl.
    pose proof (step_ids ev st) as Hstep.
    destruct (Controls.step reset ev st) as [st1 effs1].
    specialize (IH st1).
    destruct (Controls.run reset evs st1) as [st2 effs2].
    simpl in *. rewrite postedIds_app.
    destruct IH as [Hids Hlast].
    destruct Hstep as [[-> Hid] | [-> Hid]]; simpl.
    + rewrite Hid in Hids, Hlast. split; assumption.
    + rewrite Hid in Hids, Hlast. split; [|lia].
      f_equal.
      rewrite <- seq_shift, map_map.
      etransitivity; [exact Hids|].
      apply map_ext. intro k. lia.
Qed.

(** X14. While a request is outstanding (thinkingRef is true), no action
    of the user (a drop, New Game, the mode buttons, the depth selector)
    posts a request or sets a timer, and thinkingRef stays true. *)
Theorem single_flight (ev : Controls.Event) (st : State) :
  userEvent ev = true ->
  App.thinkingRef st = true ->
  snd (Controls.step reset ev st) = [] /\
  App.thinkingRef (fst (Controls.step reset ev st)) = true.
Proof.
  intros Huser Hthink.
  destruct ev; try discriminate; simpl.
  - unfold App.onDrop.
    destruct (App.isThinking st); [simpl; auto|].
    match goal with
    | |- context [move (App.gameRef st) ?o] =>
        destruct (move (App.gameRef st) o) as [g'|]
    end; [|simpl; auto].
    match goal with
    | |- context [App.maybeAIMove ?s] =>
        rewrite (proj2 (proj2 (proj2 (proj2 (maybeAIMove_frame s)))) Hthink)
    end.
    simpl. auto.
  - unfold Controls.resetGame.
    match goal with
    | |- context [App.maybeAIMove ?s] =>
        rewrite (proj2 (proj2 (proj2 (proj2 (maybeAIMove_frame s)))) Hthink)
    end.
    simpl. auto.
  - unfold App.clickMode.
    rewrite (proj2 (proj2 (proj2 (proj2
               (maybeAIMove_frame (App.flipPlayVsAI st))))) Hthink).
    simpl. auto.
  - unfold Controls.clickAiPlays.
    match goal with
    | |- context [App.maybeAIMove ?s] =>
        rewrite (proj2 (proj2 (proj2 (proj2 (maybeAIMove_frame s)))) Hthink)
    end.
    simpl. auto.
  - unfold Controls.clickAiMode.
    match goal with
    | |- context [App.maybeAIMove ?s] =>
        rewrite (proj2 (proj2 (proj2 (proj2 (maybeAIMove_frame s)))) Hthink)
    end.
    simpl. auto.
  - unfold Controls.selectDepth.
    destruct (Nat.eqb d (App.depth st)); [simpl; auto|].
    match goal with
    | |- context [App.maybeAIMove ?s] =>
        rewrite (proj2 (proj2 (proj2 (proj2 (maybeAIMove_frame s)))) Hthink)
    end.
    simpl. auto.
Qed.

(** X15. One event changes the authoritative game by at most one move that
    the rules engine accepted, or, for New Game, by the engine's reset:
    the component never installs a position of its own making. *)
Theorem game_changes_by_accepted_moves (ev : Controls.Event) (st : State) :
  let st' := fst (Controls.step reset ev st) in
  App.gameRef st' = App.gameRef st \/
  (exists o, move (App.gameRef st) o = Some (App.gameRef st')) \/
  (ev = Controls.ClickNewGame /\ App.gameRef st' = reset (App.gameRef st)).
Proof. exact (proj2 (proj2 (step_frame ev st))). Qed.

End Handlers.

(** ** The component: a request and its answer *)

Section Answers.
Context {Chess : Type} `{RulesEngine Chess}.

Local Abbreviation State := (@App.State Chess).

(* a strategy run on a position with moves answers with one of them *)
Lemma fallbackMove_legal (cb : App.Fallback) (r : Q) :
  (0 <= r)%Q -> (r < 1)%Q ->
  moves (App.fb_g cb) <> [] ->
  exists m,
    In m (moves (App.fb_g cb)) /\
    App.fallbackMove cb r = Some (Main.toShort m).
Proof.
  intros H0 H1 Hne. unfold App.fallbackMove.
  destruct (App.fb_aiMode cb).
  - apply randomPick_legal; assumption.
  - apply greedyPick_legal; assumption.
  - apply minimaxPickMain_legal; assumption.
Qed.

Hypothesis lawful : LawfulEngine.

(* a move taken from the legal moves of the authoritative game is played *)
Lemma applyResult_plays (st : State) (m : VerboseMove) :
  In m (moves (App.gameRef st)) ->
  exists g',
    move (App.gameRef st) (Main.toShort m) = Some g' /\
    App.applyResult (Some (Main.toShort m)) st
    = App.Normal (App.setFen (fen g') (App.with_game st g')).
Proof.
  intro Hin. rewrite toShort_fields.
  destruct (lawful (App.gameRef st) m Hin) as (g' & Hmove & _).
  exists g'. split; [exact Hmove|].
  unfold App.applyResult. rewrite Hmove. reflexivity.
Qed.

(** X16. When the AI is due to move, a worker exists and the position has
    a legal move, maybeAIMove posts one request and arms the 2500 ms timer;
    the worker's answer to that request, handled before anything else, is a
    legal move of the authoritative game and is played on it: the displayed
    FEN follows and the thinking flags are cleared.  (The engine keeps its
    contract, and a position rebuilt from its FEN has the same legal moves.) *)
Theorem worker_answer_is_played (st : State) (r : Q) :
  aiDue st ->
  App.workerRef st = true ->
  moves (App.gameRef st) <> [] ->
  moves (newChess (fen (newChess (fen (App.gameRef st)))))
  = moves (App.gameRef st) ->
  (0 <= r)%Q -> (r < 1)%Q ->
  exists msg cb st1 m g' st2,
    App.maybeAIMove st
    = (st1, [App.PostMessage msg; App.SetTimeout true cb 2500]) /\
    In m (moves (App.gameRef st)) /\
    Worker.res_move (Worker.onmessage r msg) = Some (Main.toShort m) /\
    move (App.gameRef st) (Main.toShort m) = Some g' /\
    App.onmessage (Worker.onmessage r msg) st1 = App.Normal st2 /\
    played st1 g' st2.
Proof.
  intros Hdue Hworker Hne Hsnap H0 H1.
  destruct (maybeAIMove_cases st)
    as [E | [(_ & Hw & _) | (_ & _ & E)]].
  - exfalso. unfold App.maybeAIMove in E.
    destruct Hdue as (Hplay & Hover & Hturn & Hthink).
    rewrite Hplay, Hover, Hturn, Hthink in E. simpl in E.
    assert (Hc : Color_eqb (App.aiColorOf (App.aiPlays st))
                   (App.aiColorOf (App.aiPlays st)) = true)
      by (destruct (App.aiColorOf (App.aiPlays st)); reflexivity).
    rewrite Hc in E. simpl in E.
    unfold App.requestAiMoveWithFallback in E. simpl in E.
    rewrite Hworker in E. simpl in E. discriminate E.
  - congruence.
  - set (msg := {| Worker.req_id := App.reqIdRef st + 1;
                   Worker.req_fen := fen (newChess (fen (App.gameRef st)));
                   Worker.req_mode := App.aiMode st;
                   Worker.req_depth := App.depth st;
                   Worker.req_aiColor := App.aiColorOf (App.aiPlays st) |})
      in *.
    set (wcb := {| App.fb_g := newChess (Worker.req_fen msg);
                   App.fb_aiMode := App.aiMode st;
                   App.fb_depth := App.depth st;
                   App.fb_aiColor := App.aiColorOf (App.aiPlays st) |}).
    assert (Hres : Worker.res_move (Worker.onmessage r msg)
                   = App.fallbackMove wcb r).
    { unfold Worker.onmessage, App.fallbackMove. simpl.
      destruct (App.aiMode st); reflexivity. }
    destruct (fallbackMove_legal wcb r H0 H1) as (m & Hin & Hmove).
    { simpl. rewrite Hsnap. exact Hne. }
    simpl in Hin. rewrite Hsnap in Hin.
    set (st1 := App.bumpReqId (App.setThinking true st)) in *.
    destruct (applyResult_plays st1 m Hin) as (g' & Hacc & Happly).
    eexists msg, _, st1, m, g', _.
    split; [exact E|]. split; [exact Hin|].
    split; [rewrite Hres; exact Hmove|].
    split; [exact Hacc|].
    split.
    + rewrite onmessage_current_id by reflexivity.
      rewrite Hres, Hmove, Happly. reflexivity.
    + repeat split.
Qed.

(** X17. When the AI is due to move and the position has a legal move, the
    timer that maybeAIMove sets (at once without a worker, after 2500 ms
    with one) plays a legal move of the authoritative game when it fires
    with nothing handled in between: the fallback always produces the AI's
    move.  (Same assumptions on the engine as for the worker's answer.) *)
Theorem fallback_answer_is_played (st : State) (r : Q) :
  aiDue st ->
  moves (App.gameRef st) <> [] ->
  moves (newChess (fen (App.gameRef st))) = moves (App.gameRef st) ->
  (0 <= r)%Q -> (r < 1)%Q ->
  exists guarded cb st1 effs m g' st2,
    App.maybeAIMove st = (st1, effs) /\
    In (App.SetTimeout guarded cb (if App.workerRef st then 2500 else 0))
      effs /\
    In m (moves (App.gameRef st)) /\
    move (App.gameRef st) (Main.toShort m) = Some g' /\
    App.timerFires guarded cb r st1 = App.Normal st2 /\
    played st1 g' st2.
Proof.
  intros Hdue Hne Hsnap H0 H1.
  set (cb := {| App.fb_g := newChess (fen (App.gameRef st));
                App.fb_aiMode := App.aiMode st;
                App.fb_depth := App.depth st;
                App.fb_aiColor := App.aiColorOf (App.aiPlays st) |}).
  destruct (fallbackMove_legal cb r H0 H1) as (m & Hin & Hmove).
  { simpl. rewrite Hsnap. exact Hne. }
  simpl in Hin. rewrite Hsnap in Hin.
  destruct (maybeAIMove_cases st)
    as [E | [(_ & Hw & E) | (_ & Hw & E)]].
  - exfalso. unfold App.maybeAIMove in E.
    destruct Hdue as (Hplay & Hover & Hturn & Hthink).
    rewrite Hplay, Hover, Hturn, Hthink in E. simpl in E.
    assert (Hc : Color_eqb (App.aiColorOf (App.aiPlays st))
                   (App.aiColorOf (App.aiPlays st)) = true)
      by (destruct (App.aiColorOf (App.aiPlays st)); reflexivity).
    rewrite Hc in E. simpl in E.
    unfold App.requestAiMoveWithFallback in E. simpl in E.
    destruct (App.workerRef st); simpl in E; discriminate E.
  - set (st1 := App.setThinking true st) in *.
    destruct (applyResult_plays st1 m Hin) as (g' & Hacc & Happly).
    eexists false, cb, st1, _, m, g', _.
    split; [exact E|]. rewrite Hw.
    split; [left; reflexivity|].
    split; [exact Hin|]. split; [exact Hacc|].
    split; [unfold App.timerFires, App.doFallback; simpl;
            rewrite Hmove, Happly; reflexivity|].
    repeat split.
  - set (st1 := App.bumpReqId (App.setThinking true st)) in *.
    destruct (applyResult_plays st1 m Hin) as (g' & Hacc & Happly).
    eexists true, cb, st1, _, m, g', _.
    split; [exact E|]. rewrite Hw.
    split; [right; left; reflexivity|].
    split; [exact Hin|]. split; [exact Hacc|].
    split; [unfold App.timerFires, App.doFallback; simpl;
            rewrite Hmove, Happly; reflexivity|].
    repeat split.
Qed.

End Answers.

Section Races.
Context {Chess : Type} `{RulesEngine Chess}.

Local Abbreviation State := (@App.State Chess).



(** X20. After requestAiMoveWithFallback has posted a new request, an
    answer carrying the id of any earlier request is discarded: the state
    is left as it is. *)
Theorem earlier_answers_are_discarded (e : Worker.Res) (st : State) :
  App.workerRef st = true ->
  Worker.res_id e <= App.reqIdRef st ->
  App.onmessage e (fst (App.requestAiMoveWithFallback st))
  = App.Normal (fst (App.requestAiMoveWithFallback st)).
Proof.
  intros Hworker Hid.
  unfold App.requestAiMoveWithFallback. rewrite Hworker. simpl.
  unfold App.onmessage. simpl.
  destruct (Z.eqb_spec (Worker.res_id e) (App.reqIdRef st + 1)); [lia|].
  reflexivity.
Qed.

(** X21. The status line reads "Checkmate" exactly when isCheckmate holds,
    and it is one of the five end-of-game labels exactly when one of the
    five tests isCheckmate, isDraw, isStalemate, isThreefoldRepetition,
    isInsufficientMaterial holds; otherwise it names the side to move. *)
Theorem status_labels (g : Chess) :
  (Controls.status g = "Checkmate"%string <-> isCheckmate g = true) /\
  (In (Controls.status g)
     ["Checkmate"; "Draw"; "Stalemate"; "Threefold repetition";
      "Insufficient material"]%string
   <->
   isCheckmate g = true \/ isDraw g = true \/ isStalemate g = true \/
   isThreefoldRepetition g = true \/ isInsufficientMaterial g = true).
Proof.
  unfold Controls.status.
  destruct (isCheckmate g), (isDraw g), (isStalemate g),
    (isThreefoldRepetition g), (isInsufficientMaterial g), (inCheck g),
    (turn g); simpl;
    (split; split; intro Hx;
     try reflexivity; try discriminate; try tauto;
     repeat (destruct Hx as [Hx | Hx]; try discriminate);
     try contradiction).
Qed.

Variable reset : Chess -> Chess.

(** X22. The button "AI mode" walks through the three modes in a cycle:
    after three clicks the mode is the one it was, after one or two it is
    another one, whatever requests the clicks set off. *)
Theorem mode_button_cycles (st : State) :
  let after n := App.aiMode
                   (fst (Controls.run reset (repeat Controls.ClickAiMode n) st))
  in
  after 3%nat = App.aiMode st /\
  after 1%nat <> App.aiMode st /\
  after 2%nat <> App.aiMode st.
Proof.
  assert (Hclick : forall s : State,
            App.aiMode (fst (Controls.clickAiMode s))
            = Controls.nextMode (App.aiMode s)).
  { intro s. unfold Controls.clickAiMode.
    match goal with
    | |- context [App.maybeAIMove ?x] =>
        destruct (maybeAIMove_frame x) as (_ & _ & Hm & _)
    end.
    rewrite Hm. reflexivity. }
  simpl.
  destruct (Controls.clickAiMode st) as [s1 e1] eqn:E1.
  destruct (Controls.clickAiMode s1) as [s2 e2] eqn:E2.
  destruct (Controls.clickAiMode s2) as [s3 e3] eqn:E3.
  pose proof (Hclick st) as H1. rewrite E1 in H1.
  pose proof (Hclick s1) as H2. rewrite E2 in H2.
  pose proof (Hclick s2) as H3. rewrite E3 in H3.
  simpl in *. rewrite H3, H2, H1.
  destruct (App.aiMode st); simpl; repeat split; discriminate.
Qed.

End Races.

(** ** The further properties at work on concrete positions *)

Section ConcreteMore.
Import Positions Scenario Board.
Local Open Scope string_scope.
Local Open Scope list_scope.

Example eventful_requests :
  Controls.postedIds (snd (Controls.run newGame eventful opening)) = [1; 2].
Proof. vm_compute. reflexivity. Qed.

Example backRank_minimax :
  fst (Main.rootSearch 2 White (moves (at_pos backRank)) (at_pos backRank)) =
  (Some rookMates, Fin 1000000000).
Proof. vm_compute. reflexivity. Qed.

Lemma evaluate_mate_score_dominates_witness :
  (List.length (List.concat (board (at_pos queenOrQuiet))) <= 64)%nat /\
  ((isCheckmate (at_pos queenOrQuiet) = true /\
    Z.abs (Main.evaluate (at_pos queenOrQuiet)) = 1000000000) \/
   (isCheckmate (at_pos queenOrQuiet) = false /\
    Z.abs (Main.evaluate (at_pos queenOrQuiet)) <= 57630)).
Proof.
  assert (Hsize : (List.length (List.concat (board (at_pos queenOrQuiet)))
                   <= 64)%nat) by (simpl; lia).
  split; [exact Hsize|].
  exact (evaluate_mate_score_dominates (at_pos queenOrQuiet) Hsize).
Defined.

Lemma evaluate_close_to_material_witness :
  Z.abs (Main.evaluate (at_pos queenOrQuiet)
         - Reference.material (at_pos queenOrQuiet)) <= 30 /\
  Z.abs (Worker.evaluate (at_pos queenOrQuiet)
         - Reference.material (at_pos queenOrQuiet)) <= 30.
Proof.
  apply (evaluate_close_to_material (at_pos queenOrQuiet)); reflexivity.
Defined.

Lemma search_fail_soft_witness :
  Nlt (Fin 300) (Fin 450) /\
  let r := fst (Main.search 3 (Fin 300) (Fin 450) (at_pos tree)) in
  let v := Reference.minimaxValue 3 (at_pos tree) in
  (Nlt (Fin 300) r -> Nlt r (Fin 450) -> r = v) /\
  (Nle r (Fin 300) -> Nle v r) /\
  (Nle (Fin 450) r -> Nle r v).
Proof.
  assert (Hwin : Nlt (Fin 300) (Fin 450)) by (simpl; lia).
  split; [exact Hwin|].
  exact (search_fail_soft positions_lawful 3 (Fin 300) (Fin 450)
           (at_pos tree) Hwin).
Defined.

Lemma minimax_first_best_witness :
  exists m,
    firstBest Black (rootValue 3 (at_pos tree)) (moves (at_pos tree)) m /\
    fst (Main.rootSearch 3 Black (moves (at_pos tree)) (at_pos tree)) =
      (Some m, rootValue 3 (at_pos tree) m) /\
    fst (Main.minimaxPickMain 3 Black (at_pos tree)) =
      Some (Main.toShort m) /\
    fst (Worker.minimaxPick 3 Black (at_pos tree)) =
      Some (Worker.toShort m).
Proof.
  apply (minimax_first_best positions_lawful 3 Black (at_pos tree)).
  - lia.
  - simpl. discriminate.
Defined.

Lemma minimax_scores_mate_in_one_witness :
  atLeastAsGood White
    (snd (fst (Main.rootSearch 2 White (moves (at_pos backRank))
                 (at_pos backRank))))
    (Fin 1000000000).
Proof.
  apply (minimax_scores_mate_in_one positions_lawful 2 White
           (at_pos backRank) rookMates).
  - lia.
  - simpl. right. right. left. reflexivity.
  - reflexivity.
  - reflexivity.
  - simpl. discriminate.
Defined.

Lemma root_score_is_minimax_value_witness :
  snd (fst (Main.rootSearch 3 (turn (at_pos tree)) (moves (at_pos tree))
              (at_pos tree))) =
  Reference.minimaxValue 3 (at_pos tree).
Proof.
  apply (root_score_is_minimax_value positions_lawful 3 (at_pos tree)).
  - lia.
  - reflexivity.
  - simpl. discriminate.
Defined.

Lemma greedy_takes_mate_witness :
  exists m,
    In m (moves (at_pos backRank)) /\
    Reference.marksMate m = true /\
    fst (Main.greedyPick 0 (at_pos backRank)) = Some (Main.toShort m) /\
    fst (Worker.greedyPicker 0 (at_pos backRank)) = Some (Worker.toShort m).
Proof.
  apply (greedy_takes_mate 0 (at_pos backRank) rookMates).
  - simpl. right. right. left. reflexivity.
  - reflexivity.
Defined.

Lemma random_reaches_every_move_witness :
  exists c : Z,
    0 <= c < 67108864 /\
    c * Z.of_nat (List.length (moves (at_pos backRank))) < 9007199254740992 /\
    fst (Main.randomPick (c # 67108864) (at_pos backRank))
      = Some (Main.toShort rookMates) /\
    fst (Worker.randomPicker (c # 67108864) (at_pos backRank))
      = Some (Worker.toShort rookMates).
Proof.
  apply (random_reaches_every_move (at_pos backRank) rookMates).
  - simpl. right. right. left. reflexivity.
  - simpl. lia.
Defined.

Lemma displayed_fen_follows_game_witness :
  App.fenState (fst (Controls.run newGame eventful opening))
  = fen (App.gameRef (fst (Controls.run newGame eventful opening))).
Proof.
  apply (displayed_fen_follows_game newGame eventful opening).
  reflexivity.
Defined.

Lemma thinking_flags_agree_witness :
  App.thinkingRef (fst (Controls.run newGame eventful opening))
  = App.isThinking (fst (Controls.run newGame eventful opening)).
Proof.
  apply (thinking_flags_agree newGame eventful opening).
  reflexivity.
Defined.

Lemma single_flight_witness :
  snd (Controls.step newGame Controls.ClickNewGame requested) = [] /\
  App.thinkingRef (fst (Controls.step newGame Controls.ClickNewGame requested))
  = true.
Proof.
  apply (single_flight newGame Controls.ClickNewGame requested);
    reflexivity.
Defined.

Lemma worker_answer_is_played_witness :
  exists msg cb st1 m g' st2,
    App.maybeAIMove blackToAnswer
    = (st1, [App.PostMessage msg; App.SetTimeout true cb 2500]) /\
    In m (moves (App.gameRef blackToAnswer)) /\
    Worker.res_move (Worker.onmessage (1 # 2) msg)
      = Some (Main.toShort m) /\
    move (App.gameRef blackToAnswer) (Main.toShort m) = Some g' /\
    App.onmessage (Worker.onmessage (1 # 2) msg) st1 = App.Normal st2 /\
    played st1 g' st2.
Proof.
  apply (worker_answer_is_played positions_lawful blackToAnswer (1 # 2)).
  - repeat split.
  - reflexivity.
  - simpl. discriminate.
  - reflexivity.
  - unfold Qle. simpl. lia.
  - unfold Qlt. simpl. lia.
Defined.

Lemma fallback_answer_is_played_witness :
  exists guarded cb st1 effs m g' st2,
    App.maybeAIMove blackToAnswer = (st1, effs) /\
    In (App.SetTimeout guarded cb
          (if App.workerRef blackToAnswer then 2500 else 0)) effs /\
    In m (moves (App.gameRef blackToAnswer)) /\
    move (App.gameRef blackToAnswer) (Main.toShort m) = Some g' /\
    App.timerFires guarded cb (1 # 2) st1 = App.Normal st2 /\
    played st1 g' st2.
Proof.
  apply (fallback_answer_is_played positions_lawful blackToAnswer (1 # 2)).
  - repeat split.
  - simpl. discriminate.
  - reflexivity.
  - unfold Qle. simpl. lia.
  - unfold Qlt. simpl. lia.
Defined.


Lemma earlier_answers_are_discarded_witness :
  App.onmessage response (fst (App.requestAiMoveWithFallback fellBack))
  = App.Normal (fst (App.requestAiMoveWithFallback fellBack)).
Proof.
  apply (earlier_answers_are_discarded response fellBack).
  - reflexivity.
  - vm_compute. discriminate.
Defined.

End ConcreteMore.
